(** * SafeZone: frame-annotation pipeline, overlay renderer and
      compliance aggregator

    Shallow embedding of the TypeScript sources

      - [src/utils/modelLoader.ts]     ([YOLODetector])
      - [src/utils/videoProcessor.ts]  ([VideoProcessor])
      - [src/hooks/useWebcam.ts]       ([useWebcam])
      - [src/pages/VideoDetectionPage.tsx] ([updateStats])
      - [src/pages/LiveWebcamPage.tsx]     ([updateDetectionStats])

    Conventions of the embedding.

      - A JavaScript [number] that holds a measure (confidence, pixel
        coordinate) is the rational [Q] that the double denotes.  In the
        detector ([YOLODetector]) and in the two aggregators every
        arithmetic operation of the source is followed by the IEEE-754
        rounding to binary64, nearest with ties to even
        ([Binary64.round]); the values met there are far from overflow,
        infinities and NaN do not arise.  The one product left unrounded
        is [Math.random() * 4]: a scaling by a power of two is exact.
        The geometry of the overlay renderer is stated in exact
        arithmetic, in the order of the operations of the source.
        Counters and array lengths are [nat], handles and DOM integer
        attributes are [Z].
      - [Math.random()] reads an oracle stream held in the world.
      - Code that can throw runs in the monad [Js]: world passing, with a
        result that is a value or a thrown error; [try_catch] is the
        [try { } catch { }] statement.
      - An [await] splits a function in two: what runs up to the
        suspension, and the continuation that the event loop runs later.
      - Objects of the browser that the code shares (media tracks) live in
        a finite map from their identity to their state. *)

From Stdlib Require Import QArith Qround Qabs Lqa Qpower.
From Stdlib Require Import PrimFloat SpecFloat FloatOps.
From stdpp Require Import base decidable option list gmap strings.

Local Open Scope string_scope.
Local Open Scope list_scope.

(** ** IEEE-754 binary64 arithmetic on the rationals

    A finite double is a rational [m * 2^e] with [|m| < 2^53] and
    [e >= -1074].  An operation of the source on doubles is the exact
    operation followed by [round]. *)

Module Binary64.

(** Exponent of the least subnormal. *)
Definition emin : Z := -1074.

Definition pow2 (k : Z) : Q := (2 ^ k)%Q.

(** [ilog2 x] is the [k] with [2^k <= x < 2^(k+1)], for [0 < x]. *)
Definition ilog2 (x : Q) : Z :=
  let c := (Z.log2 (Qnum x) - Z.log2 (Zpos (Qden x)))%Z in
  if Qle_bool (pow2 c) x then c else (c - 1)%Z.

(** Exponent of the unit in the last place of the binade of [x]. *)
Definition exponent (x : Q) : Z := Z.max emin (ilog2 x - 52).

(** Nearest integer, ties to the even one. *)
Definition rne (t : Q) : Z :=
  let f := Qfloor t in
  match (t - inject_Z f ?= 1 # 2)%Q with
  | Lt => f
  | Gt => (f + 1)%Z
  | Eq => if Z.even f then f else (f + 1)%Z
  end.

Definition roundPos (x : Q) : Q :=
  (inject_Z (rne (x / pow2 (exponent x))) * pow2 (exponent x))%Q.

(** The double nearest to [x] (ties to even). *)
Definition round (x : Q) : Q :=
  match Qnum x with
  | Z0 => 0%Q
  | Zpos _ => roundPos x
  | Zneg _ => (- roundPos (- x))%Q
  end.

(** [a + b], [a * b] and [a / b] of two doubles. *)
Definition add (a b : Q) : Q := round (a + b).
Definition mul (a b : Q) : Q := round (a * b).
Definition div (a b : Q) : Q := round (a / b).

(** [x] is the value of a double. *)
Definition isDouble (x : Q) : Prop := (round x == x)%Q.

(** The rational denoted by a finite primitive float. *)
Definition ofFloat (f : float) : option Q :=
  match Prim2SF f with
  | S754_zero _ => Some 0%Q
  | S754_finite s m e =>
      Some ((if s then -1 else 1) * inject_Z (Zpos m) * pow2 e)%Q
  | _ => None
  end.

End Binary64.

(** ** Values shared by the modules *)

(** [interface Detection] of modelLoader.ts; [bbox] is [x, y, width, height]. *)
Record Detection := {
  bbox : Q * Q * Q * Q;
  class : string;
  confidence : Q
}.

(** Truthiness of a JavaScript number that is a counter. *)
Definition truthy (n : nat) : bool := negb (n =? 0)%nat.

(** [arr.length] as a [number]. *)
Definition Qlength {A} (l : list A) : Q := inject_Z (Z.of_nat (length l)).

(** [newDetections.reduce((sum, det) => sum + det.confidence, 0)] *)
Definition sumConfidence (newDetections : list Detection) : Q :=
  fold_left (fun sum det => Binary64.add sum (confidence det))
            newDetections 0%Q.

(** [newDetections.some(det => det.class === name)] *)
Definition someClass (name : string) (newDetections : list Detection) : bool :=
  existsb (fun det => String.eqb (class det) name) newDetections.

(** ** pages/VideoDetectionPage.tsx *)

Module VideoDetectionPage.

(** The [stats] state of the page. *)
Record Stats := {
  totalDetections : nat;
  safeWorkers : nat;
  violations : nat;
  avgConfidence : Q
}.

(** Initial value given to [useState]. *)
Definition initialStats : Stats :=
  {| totalDetections := 0; safeWorkers := 0; violations := 0;
     avgConfidence := 0 |}.

(** [updateStats]: the value handed to [setStats]. *)
Definition updateStats (newDetections : list Detection) : Stats :=
  let totalDetections := length newDetections in
  let avgConfidence :=
    if (0 <? totalDetections)%nat
    then Binary64.div (sumConfidence newDetections) (Qlength newDetections)
    else 0%Q in
  let hasHelmet := someClass "Protective Helmet" newDetections in
  let hasJacket := someClass "Safety Jacket" newDetections in
  let safeWorkers := if hasHelmet && hasJacket then 1 else 0 in
  let violations :=
    if (0 <? totalDetections)%nat && negb (truthy safeWorkers)
    then 1 else 0 in
  {| totalDetections := totalDetections;
     safeWorkers := safeWorkers;
     violations := violations;
     avgConfidence := Binary64.mul avgConfidence 100 |}.

(** The page state touched by the detection callback. *)
Record Page := {
  detections : list Detection;
  stats : Stats
}.

(** The callback given to [processVideo] by [startDetection]:
    [setDetections(newDetections); updateStats(newDetections)]. *)
Definition onDetection (newDetections : list Detection) (_ : Page) : Page :=
  {| detections := newDetections; stats := updateStats newDetections |}.

End VideoDetectionPage.

(** ** pages/LiveWebcamPage.tsx *)

Module LiveWebcamPage.

(** The [detectionStats] state of the page. *)
Record DetectionStats := {
  totalDetections : nat;
  safeWorkers : nat;
  violations : nat;
  confidence : Q
}.

Definition initialStats : DetectionStats :=
  {| totalDetections := 0; safeWorkers := 0; violations := 0;
     confidence := 0 |}.

(** [updateDetectionStats]: the value handed to [setDetectionStats]. *)
Definition updateDetectionStats (newDetections : list Detection)
  : DetectionStats :=
  let totalDetections := length newDetections in
  let avgConfidence :=
    if (0 <? totalDetections)%nat
    then Binary64.div (sumConfidence newDetections) (Qlength newDetections)
    else 0%Q in
  let hasHelmet := someClass "Protective Helmet" newDetections in
  let hasJacket := someClass "Safety Jacket" newDetections in
  let safeWorkers := if hasHelmet && hasJacket then 1 else 0 in
  let violations :=
    if (0 <? totalDetections)%nat && negb (truthy safeWorkers)
    then 1 else 0 in
  {| totalDetections := totalDetections;
     safeWorkers := safeWorkers;
     violations := violations;
     confidence := Binary64.mul avgConfidence 100 |}.

Record Page := {
  detections : list Detection;
  detectionStats : DetectionStats
}.

(** The callback given to [processWebcam] by [startStream]. *)
Definition onDetection (newDetections : list Detection) (_ : Page) : Page :=
  {| detections := newDetections;
     detectionStats := updateDetectionStats newDetections |}.

End LiveWebcamPage.

(** ** The browser world and the monad of code that can throw *)

(** Outcome of running JavaScript code: a value, or a thrown [Error]
    (kept as its message). *)
Inductive JsResult (A : Type) : Type :=
| Ok (a : A)
| Throw (error : string).
Arguments Ok {A} a.
Arguments Throw {A} error.

(** [tf.GraphModel]: the only model the source ever builds is the dummy
    sequential model of [createDummyModel]. *)
Inductive GraphModel : Type := DummyModel.

(** What the code does to the outside: console output, canvas drawing of
    the video frame, and the two calls the pipeline makes per tick. *)
Inductive Effect : Type :=
| ConsoleLog (msg : string)
| ConsoleError (msg error : string)
| DrawImage (width height : Z)
| CallDrawDetections (detections : list Detection) (canvasWidth canvasHeight : Z)
| CallOnDetection (detections : list Detection).

(** The flags and intrinsic size of an [HTMLVideoElement]. *)
Record HTMLVideoElement := {
  paused : bool;
  ended : bool;
  videoWidth : Z;
  videoHeight : Z
}.

Record World := {
  (** [yoloDetector.model] of the singleton detector *)
  model : option GraphModel;
  (** the stream read by [Math.random()], and how many values were read *)
  entropy : nat -> Q;
  drawn : nat;
  (** [videoElement], [outputCanvas.width], [outputCanvas.height] and
      whether an [onDetection] callback was given to [processVideo] *)
  videoElement : HTMLVideoElement;
  canvasWidth : Z;
  canvasHeight : Z;
  hasOnDetection : bool;
  (** [VideoProcessor.animationId] *)
  animationId : option Z;
  (** the browser: callbacks registered by [requestAnimationFrame] and not
      yet run or cancelled, the last handle issued, and the activations of
      [processFrame] suspended at [await] with their settled promise *)
  rafCallbacks : list Z;
  rafHandle : Z;
  suspended : list (JsResult (list Detection));
  (** everything observable done so far, oldest first *)
  effects : list Effect
}.

Definition set_model (m : option GraphModel) (w : World) : World :=
  {| model := m; entropy := entropy w; drawn := drawn w;
     videoElement := videoElement w; canvasWidth := canvasWidth w;
     canvasHeight := canvasHeight w; hasOnDetection := hasOnDetection w;
     animationId := animationId w; rafCallbacks := rafCallbacks w;
     rafHandle := rafHandle w; suspended := suspended w;
     effects := effects w |}.

Definition set_drawn (n : nat) (w : World) : World :=
  {| model := model w; entropy := entropy w; drawn := n;
     videoElement := videoElement w; canvasWidth := canvasWidth w;
     canvasHeight := canvasHeight w; hasOnDetection := hasOnDetection w;
     animationId := animationId w; rafCallbacks := rafCallbacks w;
     rafHandle := rafHandle w; suspended := suspended w;
     effects := effects w |}.

Definition set_videoElement (v : HTMLVideoElement) (w : World) : World :=
  {| model := model w; entropy := entropy w; drawn := drawn w;
     videoElement := v; canvasWidth := canvasWidth w;
     canvasHeight := canvasHeight w; hasOnDetection := hasOnDetection w;
     animationId := animationId w; rafCallbacks := rafCallbacks w;
     rafHandle := rafHandle w; suspended := suspended w;
     effects := effects w |}.

Definition set_canvas (width height : Z) (w : World) : World :=
  {| model := model w; entropy := entropy w; drawn := drawn w;
     videoElement := videoElement w; canvasWidth := width;
     canvasHeight := height; hasOnDetection := hasOnDetection w;
     animationId := animationId w; rafCallbacks := rafCallbacks w;
     rafHandle := rafHandle w; suspended := suspended w;
     effects := effects w |}.

Definition set_animationId (id : option Z) (w : World) : World :=
  {| model := model w; entropy := entropy w; drawn := drawn w;
     videoElement := videoElement w; canvasWidth := canvasWidth w;
     canvasHeight := canvasHeight w; hasOnDetection := hasOnDetection w;
     animationId := id; rafCallbacks := rafCallbacks w;
     rafHandle := rafHandle w; suspended := suspended w;
     effects := effects w |}.

Definition set_raf (callbacks : list Z) (handle : Z) (w : World) : World :=
  {| model := model w; entropy := entropy w; drawn := drawn w;
     videoElement := videoElement w; canvasWidth := canvasWidth w;
     canvasHeight := canvasHeight w; hasOnDetection := hasOnDetection w;
     animationId := animationId w; rafCallbacks := callbacks;
     rafHandle := handle; suspended := suspended w;
     effects := effects w |}.

Definition set_suspended (s : list (JsResult (list Detection))) (w : World)
  : World :=
  {| model := model w; entropy := entropy w; drawn := drawn w;
     videoElement := videoElement w; canvasWidth := canvasWidth w;
     canvasHeight := canvasHeight w; hasOnDetection := hasOnDetection w;
     animationId := animationId w; rafCallbacks := rafCallbacks w;
     rafHandle := rafHandle w; suspended := s;
     effects := effects w |}.

Definition set_effects (es : list Effect) (w : World) : World :=
  {| model := model w; entropy := entropy w; drawn := drawn w;
     videoElement := videoElement w; canvasWidth := canvasWidth w;
     canvasHeight := canvasHeight w; hasOnDetection := hasOnDetection w;
     animationId := animationId w; rafCallbacks := rafCallbacks w;
     rafHandle := rafHandle w; suspended := suspended w;
     effects := es |}.

(** Code that reads and writes the world and may throw.  What was written
    before a throw stays written. *)
Definition Js (A : Type) : Type := World -> JsResult A * World.

#[global] Instance Js_ret : MRet Js := fun A a w => (Ok a, w).

#[global] Instance Js_bind : MBind Js := fun A B k m w =>
  match m w with
  | (Ok a, w') => k a w'
  | (Throw e, w') => (Throw e, w')
  end.

Definition throw {A} (error : string) : Js A := fun w => (Throw error, w).

(** [try { body } catch (error) { handler }] *)
Definition try_catch {A} (body : Js A) (handler : string -> Js A) : Js A :=
  fun w =>
    match body w with
    | (Ok a, w') => (Ok a, w')
    | (Throw e, w') => handler e w'
    end.

(** An assignment to a field of the world. *)
Definition modify (f : World -> World) : Js unit := fun w => (Ok tt, f w).

(** A promise or host call whose outcome is already decided. *)
Definition settled {A} (outcome : JsResult A) : Js A := fun w => (outcome, w).

Definition emit (e : Effect) : Js unit :=
  modify (fun w => set_effects (effects w ++ [e]) w).

Definition console_log (msg : string) : Js unit := emit (ConsoleLog msg).

Definition console_error (msg error : string) : Js unit :=
  emit (ConsoleError msg error).

(** [Math.random()] *)
Definition Math_random : Js Q :=
  fun w => (Ok (entropy w (drawn w)), set_drawn (S (drawn w)) w).

(** ** utils/modelLoader.ts: [class YOLODetector] *)

Module YOLODetector.

(** [private classNames] *)
Definition classNames : list string :=
  [ "Protective Helmet"; "Safety Jacket"; "Protective Gloves"; "Dust Mask";
    "Eye Wear"; "Safety Boots"; "Shield" ].

(** [arr[i]] for a [number] index that holds an integer; out of range the
    source would read [undefined]. *)
Definition index (arr : list string) (i : Z) : string :=
  if (i <? 0)%Z then "undefined"
  else default "undefined" (arr !! Z.to_nat i).

(** [createDummyModel]: [tf.sequential] builds the model or throws; which
    of the two is decided by TensorFlow.js and given here as [tfSequential]. *)
Definition createDummyModel (tfSequential : JsResult GraphModel)
  : Js GraphModel :=
  settled tfSequential.

(** [loadModel(modelPath)].  The two [await]s inside the [try] block do not
    change what the function returns; the timer promise never rejects. *)
Definition loadModel (tfSequential : JsResult GraphModel) (modelPath : string)
  : Js bool :=
  try_catch
    (console_log ("Loading model from " +:+ modelPath +:+ "...");;
     m ← createDummyModel tfSequential;
     modify (set_model (Some m));;
     console_log "Model loaded successfully";;
     mret true)
    (fun error =>
       console_error "Error loading model:" error;;
       mret false).

(** The body of the [for] loop of [generateMockDetections], run [n] times. *)
Fixpoint pushDetections (n : nat) (detections : list Detection)
  : Js (list Detection) :=
  match n with
  | O => mret detections
  | S n' =>
      r ← Math_random;
      let classIndex := Qfloor (Binary64.mul r (Qlength classNames)) in
      r ← Math_random;
      let confidence := Binary64.add 0.5 (Binary64.mul r 0.5) in
      x ← Math_random;
      y ← Math_random;
      width ← Math_random;
      height ← Math_random;
      pushDetections n'
        (detections ++
         [ {| bbox := (Binary64.mul x 400,
                       Binary64.mul y 300,
                       Binary64.add 50 (Binary64.mul width 100),
                       Binary64.add 50 (Binary64.mul height 100));
              class := index classNames classIndex;
              confidence := confidence |} ])
  end.

(** [generateMockDetections]: the loop runs while [i < numDetections].
    The product [r * 4] of a double by a power of two is exact, its
    rounding is the identity. *)
Definition generateMockDetections : Js (list Detection) :=
  r ← Math_random;
  let numDetections := (Qfloor (r * 4) + 1)%Z in
  pushDetections (Z.to_nat numDetections) [].

(** [detect(imageElement)].  [fromPixels] is what the tensor conversion
    [tf.browser.fromPixels(..).resizeNearestNeighbor(..).expandDims(0).div(255)]
    does on this frame: it returns, or throws the given error. *)
Definition detect (fromPixels : JsResult unit) : Js (list Detection) :=
  fun w =>
    match model w with
    | None => throw "Model not loaded" w
    | Some _ =>
        try_catch
          (_ ← settled fromPixels;
           detections ← generateMockDetections;
           mret detections)
          (fun error =>
             console_error "Detection error:" error;;
             mret [])
          w
    end.

(** [getClassNames] *)
Definition getClassNames : list string := classNames.

(** [isLoaded]: [this.model !== null] *)
Definition isLoaded (w : World) : bool :=
  match model w with Some _ => true | None => false end.

End YOLODetector.

(** ** utils/videoProcessor.ts: [class VideoProcessor] *)

(** The part of a 2D canvas context that [drawDetections] uses: the current
    styles, and what has been painted, oldest first, each shape with the
    styles it was painted with. *)
Inductive Shape : Type :=
| StrokedRect (strokeStyle : string) (lineWidth : Z) (x y width height : Q)
| FilledRect (fillStyle : string) (x y width height : Q)
| FilledText (fillStyle font text : string) (x y : Q).

Record CanvasRenderingContext2D := {
  strokeStyle : string;
  lineWidth : Z;
  font : string;
  fillStyle : string;
  painted : list Shape
}.

(** [a || b] on numbers that hold integers. *)
Definition orElse (a b : Z) : Z := if (a =? 0)%Z then b else a.

(** [arr.length === 0] *)
Definition isEmpty {A : Type} (arr : list A) : bool :=
  match arr with [] => true | _ :: _ => false end.

(** [arr.forEach((x, index) => f)], started at [index]. *)
Fixpoint forEach {A St : Type} (f : A -> nat -> St -> St) (arr : list A)
  (index : nat) (s : St) : St :=
  match arr with
  | [] => s
  | x :: rest => forEach f rest (S index) (f x index s)
  end.

Module VideoProcessor.

Section Renderer.

(** Host functions: [Number.prototype.toFixed(1)] and the width that
    [ctx.measureText] reports for a text in a font. *)
Variable toFixed1 : Q -> string.
Variable measureText : string -> string -> Q.

(** The palette declared inside the loop body. *)
Definition colors : list string :=
  [ "#3B82F6"; "#10B981"; "#8B5CF6"; "#F59E0B";
    "#EF4444"; "#6366F1"; "#EC4899" ].

(** The callback of [detections.forEach] in [drawDetections]. *)
Definition drawDetection (canvasWidth canvasHeight : Q)
  (detection : Detection) (index : nat) (ctx : CanvasRenderingContext2D)
  : CanvasRenderingContext2D :=
  let '(x, y, width, height) := bbox detection in
  let scaledX := (x / 640 * canvasWidth)%Q in
  let scaledY := (y / 640 * canvasHeight)%Q in
  let scaledWidth := (width / 640 * canvasWidth)%Q in
  let scaledHeight := (height / 640 * canvasHeight)%Q in
  let color := default "undefined" (colors !! (index mod length colors)) in
  (* ctx.strokeStyle = color; ctx.lineWidth = 3; ctx.strokeRect(..) *)
  let shape1 := StrokedRect color 3 scaledX scaledY scaledWidth scaledHeight in
  let label :=
    class detection +:+ " (" +:+ toFixed1 (confidence detection * 100)%Q +:+ "%)" in
  let font := "14px Inter, sans-serif" in
  let textWidth := measureText font label in
  let textHeight := 20%Q in
  (* ctx.fillStyle = color; ctx.fillRect(..) *)
  let shape2 :=
    FilledRect color scaledX (scaledY - textHeight - 5)%Q
      (textWidth + 10)%Q (textHeight + 5)%Q in
  (* ctx.fillStyle = 'white'; ctx.fillText(..) *)
  let shape3 := FilledText "white" font label (scaledX + 5)%Q (scaledY - 8)%Q in
  {| strokeStyle := color;
     lineWidth := 3;
     font := font;
     fillStyle := "white";
     painted := painted ctx ++ [shape1; shape2; shape3] |}.

(** [drawDetections(ctx, detections, canvasWidth, canvasHeight)] *)
Definition drawDetections (ctx : CanvasRenderingContext2D)
  (detections : list Detection) (canvasWidth canvasHeight : Q)
  : CanvasRenderingContext2D :=
  forEach (drawDetection canvasWidth canvasHeight) detections 0 ctx.

End Renderer.

(** [requestAnimationFrame(processFrame)]: the browser issues the next
    handle and keeps the callback until it runs or is cancelled. *)
Definition requestAnimationFrame : Js Z :=
  fun w =>
    let id := (rafHandle w + 1)%Z in
    (Ok id, set_raf (rafCallbacks w ++ [id]) id w).

(** [cancelAnimationFrame(id)] *)
Definition cancelAnimationFrame (id : Z) : Js unit :=
  modify (fun w =>
    set_raf (filter (fun id' => id' ≠ id) (rafCallbacks w)) (rafHandle w) w).

(** [processFrame] up to its [await].  The call [yoloDetector.detect] runs
    to its end here (it has no suspension of its own) and leaves a settled
    promise; the activation is then suspended on it. *)
Definition processFrame_begin (fromPixels : JsResult unit) (w : World)
  : World :=
  let v := videoElement w in
  if paused v || ended v then w
  else
    let w := set_canvas (orElse (videoWidth v) 640) (orElse (videoHeight v) 480) w in
    let w := snd (emit (DrawImage (canvasWidth w) (canvasHeight w)) w) in
    let '(promise, w) := YOLODetector.detect fromPixels w in
    set_suspended (suspended w ++ [promise]) w.

(** [processFrame] from its [await] on: the [try] block continues with the
    value of the promise or its [catch] runs, then the next frame is
    requested.  The callbacks that the two pages pass as [onDetection] only
    set state; a callback that throws is not modelled. *)
Definition processFrame_resume (promise : JsResult (list Detection))
  (w : World) : World :=
  let body : Js unit :=
    try_catch
      (detections ← settled promise;
       emit (CallDrawDetections detections (canvasWidth w) (canvasHeight w));;
       if hasOnDetection w then emit (CallOnDetection detections)
       else mret tt)
      (fun error => console_error "Detection error:" error);;
    id ← requestAnimationFrame;
    modify (set_animationId (Some id)) in
  snd (body w).

(** [stopProcessing] *)
Definition stopProcessing (w : World) : World :=
  match animationId w with
  | Some id =>
      if (id =? 0)%Z then w
      else set_animationId None (snd (cancelAnimationFrame id w))
  | None => w
  end.

(** What can happen to a running page, one event at a time.  Events may
    come in any order that a caller of the class and the browser can
    produce; a handle that is not registered any more runs nothing. *)
Inductive Event : Type :=
| CallProcessVideo (fromPixels : JsResult unit)
    (** [processVideo(videoElement, outputCanvas, onDetection)]: it calls
        [processFrame()] once *)
| AnimationFrame (id : Z) (fromPixels : JsResult unit)
    (** the browser runs the callback registered under [id], if it is
        still registered *)
| PromiseSettled
    (** the event loop continues the oldest suspended [processFrame] *)
| CallStopProcessing
| VideoChanged (v : HTMLVideoElement)
    (** the user or the media engine plays, pauses or ends the video *).

Definition step (w : World) (e : Event) : World :=
  match e with
  | CallProcessVideo fromPixels => processFrame_begin fromPixels w
  | AnimationFrame id fromPixels =>
      if bool_decide (id ∈ rafCallbacks w)
      then processFrame_begin fromPixels
             (set_raf (filter (fun id' => id' ≠ id) (rafCallbacks w))
                (rafHandle w) w)
      else w
  | PromiseSettled =>
      match suspended w with
      | promise :: rest => processFrame_resume promise (set_suspended rest w)
      | [] => w
      end
  | CallStopProcessing => stopProcessing w
  | VideoChanged v => set_videoElement v w
  end.

Definition run (w : World) (events : list Event) : World :=
  foldl step w events.

(** A tick of the loop is pending: registered with the browser, or
    suspended on a detection. *)
Definition scheduled (w : World) : bool :=
  negb (isEmpty (rafCallbacks w)) || negb (isEmpty (suspended w)).

(** The calls to the renderer and to the aggregator callback among effects. *)
Definition isRenderOrAggregate (e : Effect) : bool :=
  match e with
  | CallDrawDetections _ _ _ | CallOnDetection _ => true
  | _ => false
  end.

End VideoProcessor.

(** The detection callbacks of the two pages, applied to the calls that a
    run of the pipeline made, in order. *)
Definition videoPageAfter (es : list Effect) (page : VideoDetectionPage.Page)
  : VideoDetectionPage.Page :=
  foldl (fun page e =>
           match e with
           | CallOnDetection detections =>
               VideoDetectionPage.onDetection detections page
           | _ => page
           end) page es.

Definition webcamPageAfter (es : list Effect) (page : LiveWebcamPage.Page)
  : LiveWebcamPage.Page :=
  foldl (fun page e =>
           match e with
           | CallOnDetection detections =>
               LiveWebcamPage.onDetection detections page
           | _ => page
           end) page es.

(** ** hooks/useWebcam.ts *)

Module useWebcam.

(** [MediaStreamTrack.readyState] *)
Inductive ReadyState : Type := Live | Ended.

(** A [MediaStream] is known by the tracks it holds; tracks are objects of
    the browser, shared by every holder of the stream. *)
Record MediaStream := { getTracks : list nat }.

(** What [getUserMedia] rejects with: an [Error], or some other value. *)
Inductive Rejection : Type :=
| ErrorObject (message : string)
| OtherValue.

(** The state of the hook ([isActive], [error], [streamRef.current]) and
    the browser's table of tracks. *)
Record Hook := {
  isActive : bool;
  error : option string;
  streamRef : option MediaStream;
  tracks : gmap nat ReadyState
}.

(** [track.stop()] *)
Definition stop (track : nat) (tracks : gmap nat ReadyState)
  : gmap nat ReadyState :=
  <[track := Ended]> tracks.

(** [startWebcam]; [getUserMedia] is the outcome of
    [navigator.mediaDevices.getUserMedia(constraints)]. *)
Definition startWebcam (getUserMedia : MediaStream + Rejection) (h : Hook)
  : option MediaStream * Hook :=
  (* setError(null) *)
  let h := {| isActive := isActive h; error := None;
              streamRef := streamRef h; tracks := tracks h |} in
  match getUserMedia with
  | inl stream =>
      (Some stream,
       {| isActive := true; error := error h;
          streamRef := Some stream; tracks := tracks h |})
  | inr err =>
      let errorMessage :=
        match err with
        | ErrorObject message => message
        | OtherValue => "Failed to access webcam"
        end in
      (None,
       {| isActive := false; error := Some errorMessage;
          streamRef := streamRef h; tracks := tracks h |})
  end.

(** [stopWebcam] *)
Definition stopWebcam (h : Hook) : Hook :=
  let h :=
    match streamRef h with
    | Some stream =>
        {| isActive := isActive h; error := error h;
           streamRef := None;
           tracks := foldl (fun tracks track => stop track tracks)
                       (tracks h) (getTracks stream) |}
    | None => h
    end in
  {| isActive := false; error := None;
     streamRef := streamRef h; tracks := tracks h |}.

End useWebcam.

(** ** Specification-side notions *)

(** The sum and the arithmetic mean of a list of numbers, as mathematics
    defines them. *)
Fixpoint Qsum (l : list Q) : Q :=
  match l with
  | [] => 0%Q
  | x :: rest => (x + Qsum rest)%Q
  end.

Definition arithmeticMean (l : list Q) : Q := (Qsum l / Qlength l)%Q.

(** The batch contains a detection of the given class. *)
Definition hasClass (name : string) (batch : list Detection) : Prop :=
  Exists (fun det => class det = name) batch.

(** Every confidence of the batch lies in [[0,1]]. *)
Definition confidencesInUnit (batch : list Detection) : Prop :=
  Forall (fun det => 0 <= confidence det /\ confidence det <= 1)%Q batch.

(** The half-open ranges that the comments of the mock generator name:
    confidence in [[0.5, 1)], a class of the detector's list, x in
    [[0, 400)], y in [[0, 300)], width and height in [[50, 150)]. *)
Definition mockShaped (det : Detection) : Prop :=
  (0.5 <= confidence det /\ confidence det < 1)%Q
  /\ class det ∈ YOLODetector.classNames
  /\ (0 <= (bbox det).1.1.1 /\ (bbox det).1.1.1 < 400)%Q
  /\ (0 <= (bbox det).1.1.2 /\ (bbox det).1.1.2 < 300)%Q
  /\ (50 <= (bbox det).1.2 /\ (bbox det).1.2 < 150)%Q
  /\ (50 <= (bbox det).2 /\ (bbox det).2 < 150)%Q.

(** The ranges that the doubles of the mock generator stay in: as above,
    with the upper bounds of the confidence, the width and the height
    closed. *)
Definition mockRanged (det : Detection) : Prop :=
  (0.5 <= confidence det /\ confidence det <= 1)%Q
  /\ class det ∈ YOLODetector.classNames
  /\ (0 <= (bbox det).1.1.1 /\ (bbox det).1.1.1 < 400)%Q
  /\ (0 <= (bbox det).1.1.2 /\ (bbox det).1.1.2 < 300)%Q
  /\ (50 <= (bbox det).1.2 /\ (bbox det).1.2 <= 150)%Q
  /\ (50 <= (bbox det).2 /\ (bbox det).2 <= 150)%Q.

(** [Math.random()] keeps its contract: every value is in [[0, 1)]. *)
Definition randomInUnit (w : World) : Prop :=
  forall n, (0 <= entropy w n /\ entropy w n < 1)%Q.

(** Every value of [Math.random()] is a double. *)
Definition randomIsDouble (w : World) : Prop :=
  forall n, Binary64.isDouble (entropy w n).

(** The event runs [processFrame]: a call of [processVideo] does, and so
    does a frame of the browser whose callback is still registered. *)
Definition runsProcessFrame (w : World) (e : VideoProcessor.Event) : bool :=
  match e with
  | VideoProcessor.CallProcessVideo _ => true
  | VideoProcessor.AnimationFrame id _ => bool_decide (id ∈ rafCallbacks w)
  | _ => false
  end.

(** The callbacks still registered once the browser has run the event: a
    frame takes its own callback off the list. *)
Definition rafCallbacksAfterFrame (w : World) (e : VideoProcessor.Event)
  : list Z :=
  match e with
  | VideoProcessor.AnimationFrame id _ =>
      filter (fun id' => id' ≠ id) (rafCallbacks w)
  | _ => rafCallbacks w
  end.

(** What the detector leaves alone: everything of the world except the
    random stream position and the effects. *)
Definition sameLoopState (w w' : World) : Prop :=
  model w' = model w /\ entropy w' = entropy w
  /\ videoElement w' = videoElement w
  /\ canvasWidth w' = canvasWidth w /\ canvasHeight w' = canvasHeight w
  /\ hasOnDetection w' = hasOnDetection w
  /\ animationId w' = animationId w
  /\ rafCallbacks w' = rafCallbacks w /\ rafHandle w' = rafHandle w
  /\ suspended w' = suspended w.

(** The detection of a tick faults: the model is missing, or the tensor
    conversion throws. *)
Definition detectionFaults (w : World) (fromPixels : JsResult unit) : bool :=
  match model w, fromPixels with
  | Some _, Ok _ => false
  | _, _ => true
  end.

(** The event is a call of [processVideo]. *)
Definition isCallProcessVideo (e : VideoProcessor.Event) : bool :=
  match e with VideoProcessor.CallProcessVideo _ => true | _ => false end.

(** The worlds of a page that runs one loop at a time: it starts with
    nothing scheduled, and [processVideo] is called only when no tick of an
    earlier call is still pending. *)
Inductive singleLoop : World -> Prop :=
| singleLoop_idle (w : World) :
    rafCallbacks w = [] -> suspended w = [] -> (0 <= rafHandle w)%Z ->
    singleLoop w
| singleLoop_step (w : World) (e : VideoProcessor.Event) :
    singleLoop w ->
    (isCallProcessVideo e = true -> VideoProcessor.scheduled w = false) ->
    singleLoop (VideoProcessor.step w e).

(** ** The expressions of the mock generator over primitive floats

    The two expressions of the generator whose upper bound the rounding
    reaches, and the average of the aggregators on the sample batch,
    over the binary64 floats of the kernel: a second reading of the same
    arithmetic, against which [Binary64.round] is checked. *)

Module Double.

(** [0.5 + Math.random() * 0.5] *)
Definition confidence (r : float) : float := (0.5 + r * 0.5)%float.

(** [50 + Math.random() * 100] *)
Definition size (r : float) : float := (50 + r * 100)%float.

(** The largest double below 1, [1 - 2^-53]. *)
Definition largestBelowOne : float := 0x1.fffffffffffffp-1%float.

(** The largest double below 1 with 52 random bits, [1 - 2^-52]. *)
Definition largestBelowOne52 : float := 0x1.ffffffffffffep-1%float.

(** The doubles nearest to 0.9 and to 0.8. *)
Definition nineTenths : float := 0x1.ccccccccccccdp-1%float.
Definition eightTenths : float := 0x1.999999999999ap-1%float.

(** [sum / length * 100] of the aggregators for two confidences. *)
Definition percent (c1 c2 : float) : float :=
  ((0 + c1 + c2) / 2 * 100)%float.

(** The float [f] is finite and its value is the rational [q]. *)
Definition denotes (f : float) (q : Q) : bool :=
  match Binary64.ofFloat f with
  | Some x => Qeq_bool x q
  | None => false
  end.

End Double.

(** ** Sample inputs *)

(** A playing 1280 by 720 video, and the same video paused. *)
Definition playingVideo : HTMLVideoElement :=
  {| paused := false; ended := false; videoWidth := 1280; videoHeight := 720 |}.

Definition pausedVideo : HTMLVideoElement :=
  {| paused := true; ended := false; videoWidth := 1280; videoHeight := 720 |}.

(** A page before [processVideo] is called: nothing scheduled, a callback
    given, [Math.random()] stuck at 0.5; with the model loaded or not. *)
Definition idleWorld (m : option GraphModel) : World :=
  {| model := m; entropy := fun _ => 0.5%Q; drawn := 0;
     videoElement := playingVideo; canvasWidth := 300; canvasHeight := 150;
     hasOnDetection := true; animationId := None;
     rafCallbacks := []; rafHandle := 0; suspended := []; effects := [] |}.

(** The first batch of the alternating scenario: a helmet at 0.9 and a
    jacket at 0.8. *)
Definition helmetAndJacket : list Detection :=
  [ {| bbox := (0, 0, 64, 64)%Q; class := "Protective Helmet";
       confidence := 0.9 |};
    {| bbox := (64, 64, 128, 128)%Q; class := "Safety Jacket";
       confidence := 0.8 |} ].

(** The same batch as a caller holds it: the confidences are the doubles
    that the literals 0.9 and 0.8 denote. *)
Definition helmetAndJacketDoubles : list Detection :=
  [ {| bbox := (0, 0, 64, 64)%Q; class := "Protective Helmet";
       confidence := Binary64.round 0.9 |};
    {| bbox := (64, 64, 128, 128)%Q; class := "Safety Jacket";
       confidence := Binary64.round 0.8 |} ].

(** The three confidences 0.1, 0.2 and 0.3, as doubles. *)
Definition threeGloves : list Detection :=
  [ {| bbox := (0, 0, 64, 64)%Q; class := "Protective Gloves";
       confidence := Binary64.round 0.1 |};
    {| bbox := (0, 0, 64, 64)%Q; class := "Protective Gloves";
       confidence := Binary64.round 0.2 |};
    {| bbox := (0, 0, 64, 64)%Q; class := "Protective Gloves";
       confidence := Binary64.round 0.3 |} ].

(** The idle page with the model loaded and [Math.random()] stuck at the
    largest double below 1. *)
Definition edgeWorld : World :=
  {| model := Some DummyModel;
     entropy := fun _ => (1 - Binary64.pow2 (-53))%Q; drawn := 0;
     videoElement := playingVideo; canvasWidth := 300; canvasHeight := 150;
     hasOnDetection := true; animationId := None;
     rafCallbacks := []; rafHandle := 0; suspended := []; effects := [] |}.

(** The page once the first tick has run to its end with the model
    loaded: the second tick is registered with the browser under handle 1. *)
Definition tickRegistered : World :=
  VideoProcessor.run (idleWorld (Some DummyModel))
    [ VideoProcessor.CallProcessVideo (Ok tt); VideoProcessor.PromiseSettled ].

(** The page when [stopProcessing] is called right after [processVideo]:
    the first detection is still in flight. *)
Definition stoppedInFlight : World :=
  VideoProcessor.run (idleWorld (Some DummyModel))
    [ VideoProcessor.CallProcessVideo (Ok tt);
      VideoProcessor.CallStopProcessing ].

(** The page when the video is paused while the second tick is registered. *)
Definition pausedWhileRegistered : World :=
  VideoProcessor.step tickRegistered (VideoProcessor.VideoChanged pausedVideo).

(** The video page showing the stats of the sample batch. *)
Definition pageWithStats : VideoDetectionPage.Page :=
  VideoDetectionPage.onDetection helmetAndJacket
    {| VideoDetectionPage.detections := [];
       VideoDetectionPage.stats := VideoDetectionPage.initialStats |}.

(** A webcam session: the camera gave a stream of one video track, live. *)
Definition cameraStream : useWebcam.MediaStream :=
  {| useWebcam.getTracks := [7] |}.

Definition activeHook : useWebcam.Hook :=
  snd (useWebcam.startWebcam (inl cameraStream)
         {| useWebcam.isActive := false; useWebcam.error := None;
            useWebcam.streamRef := None;
            useWebcam.tracks := {[ 7 := useWebcam.Live ]} |}).

(** ** Further code of the cited files *)

(** A 2D context as [canvas.getContext('2d')] hands it out: the default
    styles, nothing painted. *)
Definition freshContext : CanvasRenderingContext2D :=
  {| strokeStyle := "#000000"; lineWidth := 1; font := "10px sans-serif";
     fillStyle := "#000000"; painted := [] |}.

(** The batch that a caller of [detect] receives; none when it throws. *)
Definition batchOf (r : JsResult (list Detection)) : list Detection :=
  match r with
  | Ok detections => detections
  | Throw _ => []
  end.

(** The calls of the [onDetection] callback among effects, and their count. *)
Definition isOnDetection (e : Effect) : bool :=
  match e with CallOnDetection _ => true | _ => false end.

Definition countCallbacks (es : list Effect) : nat :=
  length (List.filter isOnDetection es).

(** In a sequence of effects that comes after [prev], every call of the
    callback comes right after a call of the renderer with the same batch. *)
Fixpoint callbacksFollowRender (prev : option Effect) (es : list Effect)
  : Prop :=
  match es with
  | [] => True
  | e :: rest =>
      match e with
      | CallOnDetection detections =>
          exists width height,
            prev = Some (CallDrawDetections detections width height)
      | _ => True
      end
      /\ callbacksFollowRender (Some e) rest
  end.

(** [videoElement.pause()] *)
Definition pause (v : HTMLVideoElement) : HTMLVideoElement :=
  {| paused := true; ended := ended v;
     videoWidth := videoWidth v; videoHeight := videoHeight v |}.

(** Handlers of pages/VideoDetectionPage.tsx that drive the pipeline. *)
Module VideoDetectionControls.

(** [stopDetection]: [videoRef.current] and [videoProcessorRef.current] are
    tested before use; [setIsPlaying(false)] touches the page only. *)
Definition stopDetection (videoRef videoProcessorRef : bool) (w : World)
  : World :=
  let w :=
    if videoRef then set_videoElement (pause (videoElement w)) w else w in
  if videoProcessorRef then VideoProcessor.stopProcessing w else w.

End VideoDetectionControls.

(** The legend of pages/LiveWebcamPage.tsx. *)
Module LiveWebcamLegend.

Record ClassItem := {
  name : string;
  color : string;
  detected : bool
}.

(** [detectionClasses], computed from the [detections] state. *)
Definition detectionClasses (detections : list Detection) : list ClassItem :=
  [ {| name := "Protective Helmet"; color := "bg-blue-500";
       detected := someClass "Protective Helmet" detections |};
    {| name := "Safety Jacket"; color := "bg-green-500";
       detected := someClass "Safety Jacket" detections |};
    {| name := "Protective Gloves"; color := "bg-purple-500";
       detected := someClass "Protective Gloves" detections |};
    {| name := "Dust Mask"; color := "bg-yellow-500";
       detected := someClass "Dust Mask" detections |};
    {| name := "Eye Wear"; color := "bg-red-500";
       detected := someClass "Eye Wear" detections |};
    {| name := "Safety Boots"; color := "bg-indigo-500";
       detected := someClass "Safety Boots" detections |};
    {| name := "Shield"; color := "bg-pink-500";
       detected := someClass "Shield" detections |} ].

End LiveWebcamLegend.

(** The idle page of a caller that gave no [onDetection] callback. *)
Definition silentWorld : World :=
  {| model := Some DummyModel; entropy := fun _ => 0.5%Q; drawn := 0;
     videoElement := playingVideo; canvasWidth := 300; canvasHeight := 150;
     hasOnDetection := false; animationId := None;
     rafCallbacks := []; rafHandle := 0; suspended := []; effects := [] |}.

(** The idle page with the model loaded and the video paused, as it is
    when a file has just been loaded into the video element. *)
Definition pausedIdleWorld : World :=
  set_videoElement pausedVideo (idleWorld (Some DummyModel)).

(** The event is a change of the video element from outside. *)
Definition isVideoChanged (e : VideoProcessor.Event) : bool :=
  match e with VideoProcessor.VideoChanged _ => true | _ => false end.

(** * Properties *)

(** ** Rounding to binary64

    [round] is monotone, leaves the doubles where they are, and moves a
    number by at most half a unit in the last place of its binade. *)

Module Binary64Facts.

Import Binary64.

Lemma pow2_pos k : (0 < pow2 k)%Q.
Proof. apply Qpower_0_lt. reflexivity. Qed.

Lemma pow2_add a b : (pow2 (a + b) == pow2 a * pow2 b)%Q.
Proof. apply Qpower_plus. discriminate. Qed.

Lemma pow2_sub a b : (pow2 (a - b) == pow2 a / pow2 b)%Q.
Proof.
  unfold pow2. change (a - b)%Z with (a + - b)%Z.
  rewrite Qpower_plus by discriminate. rewrite Qpower_opp. reflexivity.
Qed.

Lemma pow2_le a b : (a <= b)%Z -> (pow2 a <= pow2 b)%Q.
Proof. intros H. apply Qpower_le_compat_l; [exact H|discriminate]. Qed.

Lemma pow2_lt a b : (a < b)%Z -> (pow2 a < pow2 b)%Q.
Proof. intros H. apply Qpower_lt_compat_l; [exact H|reflexivity]. Qed.

Lemma pow2_lt_inv a b : (pow2 a < pow2 b)%Q -> (a < b)%Z.
Proof. intros H. eapply Qpower_lt_compat_l_inv; [exact H|reflexivity]. Qed.

Lemma pow2_le_inv a b : (pow2 a <= pow2 b)%Q -> (a <= b)%Z.
Proof. intros H. eapply Qpower_le_compat_l_inv; [exact H|reflexivity]. Qed.

Lemma pow2_Z k : (0 <= k)%Z -> (pow2 k == inject_Z (2 ^ k))%Q.
Proof. intros H. unfold pow2. rewrite Zpower_Qpower by exact H. reflexivity. Qed.

Lemma pow2_succ k : (pow2 (k + 1) == 2 * pow2 k)%Q.
Proof. rewrite pow2_add. change (pow2 1) with 2%Q. ring. Qed.

Lemma Qnum_pos (x : Q) : (0 < x)%Q <-> (0 < Qnum x)%Z.
Proof. unfold Qlt. simpl. lia. Qed.

Lemma ilog2_spec (x : Q) :
  (0 < x)%Q -> (pow2 (ilog2 x) <= x /\ x < pow2 (ilog2 x + 1))%Q.
Proof.
  intros Hx. unfold ilog2.
  set (a := Z.log2 (Qnum x)). set (b := Z.log2 (Z.pos (Qden x))).
  assert (Hn : (0 < Qnum x)%Z) by (by apply Qnum_pos).
  destruct (Z.log2_spec (Qnum x) Hn) as [Ha1 Ha2]. fold a in Ha1, Ha2.
  destruct (Z.log2_spec (Z.pos (Qden x)) eq_refl) as [Hb1 Hb2].
  fold b in Hb1, Hb2.
  assert (Ha0 : (0 <= a)%Z) by apply Z.log2_nonneg.
  assert (Hb0 : (0 <= b)%Z) by apply Z.log2_nonneg.
  assert (Hxq : (x == inject_Z (Qnum x) / inject_Z (Z.pos (Qden x)))%Q).
  { destruct x as [n d]. apply Qmake_Qdiv. }
  set (n := inject_Z (Qnum x)) in *. set (d := inject_Z (Z.pos (Qden x))) in *.
  assert (Hd : (0 < d)%Q) by (subst d; unfold Qlt; simpl; lia).
  assert (Hna : (pow2 a <= n /\ n < pow2 (a + 1))%Q).
  { rewrite !pow2_Z by lia. subst n. rewrite <- Zle_Qle, <- Zlt_Qlt.
    unfold Z.succ in Ha2. lia. }
  assert (Hdb : (pow2 b <= d /\ d < pow2 (b + 1))%Q).
  { rewrite !pow2_Z by lia. subst d. rewrite <- Zle_Qle, <- Zlt_Qlt.
    unfold Z.succ in Hb2. lia. }
  destruct Hna as [Hna1 Hna2], Hdb as [Hdb1 Hdb2].
  assert (Hup : (x < pow2 (a - b + 1))%Q).
  { rewrite Hxq. apply Qlt_shift_div_r; [exact Hd|].
    assert (E : (pow2 (a + 1) == pow2 (a - b + 1) * pow2 b)%Q)
      by (rewrite <- pow2_add; f_equiv; lia).
    pose proof (pow2_pos (a - b + 1)). pose proof (pow2_pos b).
    set (p := pow2 (a - b + 1)) in *. set (q := pow2 b) in *.
    set (r := pow2 (a + 1)) in *. nra. }
  assert (Hlo : (pow2 (a - b - 1) < x)%Q).
  { rewrite Hxq. apply Qlt_shift_div_l; [exact Hd|].
    assert (E : (pow2 a == pow2 (a - b - 1) * pow2 (b + 1))%Q)
      by (rewrite <- pow2_add; f_equiv; lia).
    pose proof (pow2_pos (a - b - 1)). pose proof (pow2_pos (b + 1)).
    set (p := pow2 (a - b - 1)) in *. set (q := pow2 (b + 1)) in *.
    set (r := pow2 a) in *. nra. }
  destruct (Qle_bool (pow2 (a - b)) x) eqn:E.
  - apply Qle_bool_iff in E. split; [exact E|exact Hup].
  - assert (Hlt : (x < pow2 (a - b))%Q).
    { apply Qnot_le_lt. intros H. apply Qle_bool_iff in H. congruence. }
    replace (a - b - 1 + 1)%Z with (a - b)%Z by lia.
    split; [apply Qlt_le_weak; exact Hlo|exact Hlt].
Qed.

Lemma ilog2_unique (x : Q) (k : Z) :
  (pow2 k <= x)%Q -> (x < pow2 (k + 1))%Q -> ilog2 x = k.
Proof.
  intros H1 H2.
  assert (Hx : (0 < x)%Q) by (eapply Qlt_le_trans; [apply pow2_pos|exact H1]).
  destruct (ilog2_spec x Hx) as [S1 S2].
  assert (ilog2 x < k + 1)%Z
    by (apply pow2_lt_inv; eapply Qle_lt_trans; [exact S1|exact H2]).
  assert (k < ilog2 x + 1)%Z
    by (apply pow2_lt_inv; eapply Qle_lt_trans; [exact H1|exact S2]).
  lia.
Qed.

Lemma ilog2_proper (x y : Q) : (0 < x)%Q -> (x == y)%Q -> ilog2 x = ilog2 y.
Proof.
  intros Hx E. destruct (ilog2_spec x Hx) as [S1 S2].
  symmetry. apply ilog2_unique; rewrite <- E; assumption.
Qed.

Lemma ilog2_mono (x y : Q) : (0 < x)%Q -> (x <= y)%Q -> (ilog2 x <= ilog2 y)%Z.
Proof.
  intros Hx Hxy.
  assert (Hy : (0 < y)%Q) by (eapply Qlt_le_trans; eassumption).
  destruct (ilog2_spec x Hx) as [S1 _], (ilog2_spec y Hy) as [_ T2].
  assert (ilog2 x < ilog2 y + 1)%Z; [|lia].
  apply pow2_lt_inv. eapply Qle_lt_trans; [exact S1|].
  eapply Qle_lt_trans; eassumption.
Qed.

Lemma ilog2_le (x : Q) (k : Z) : (0 < x)%Q -> (x <= pow2 k)%Q -> (ilog2 x <= k)%Z.
Proof.
  intros Hx H. destruct (ilog2_spec x Hx) as [S1 _].
  apply pow2_le_inv. eapply Qle_trans; eassumption.
Qed.

Lemma ilog2_lt (x : Q) (k : Z) : (0 < x)%Q -> (x < pow2 k)%Q -> (ilog2 x < k)%Z.
Proof.
  intros Hx H. destruct (ilog2_spec x Hx) as [S1 _].
  apply pow2_lt_inv. eapply Qle_lt_trans; eassumption.
Qed.

Lemma rne_cases (t : Q) : rne t = Qfloor t \/ rne t = (Qfloor t + 1)%Z.
Proof.
  unfold rne. destruct (t - inject_Z (Qfloor t) ?= 1 # 2)%Q; auto.
  destruct (Z.even (Qfloor t)); auto.
Qed.

Lemma rne_error (t : Q) : (Qabs (inject_Z (rne t) - t) <= 1 # 2)%Q.
Proof.
  pose proof (Qfloor_le t) as H1. pose proof (Qlt_floor t) as H2.
  rewrite inject_Z_plus in H2. change (inject_Z 1) with 1%Q in H2.
  apply Qabs_Qle_condition. unfold rne.
  destruct (Qcompare_spec (t - inject_Z (Qfloor t)) (1 # 2)) as [E|E|E].
  - destruct (Z.even (Qfloor t));
      rewrite ?inject_Z_plus; change (inject_Z 1) with 1%Q; split; lra.
  - split; lra.
  - rewrite inject_Z_plus. change (inject_Z 1) with 1%Q. split; lra.
Qed.

Lemma rne_Z (z : Z) : rne (inject_Z z) = z.
Proof.
  unfold rne. rewrite Qfloor_Z.
  destruct (Qcompare_spec (inject_Z z - inject_Z z) (1 # 2)) as [E|E|E];
    [exfalso; lra|reflexivity|exfalso; lra].
Qed.

Lemma rne_proper (t u : Q) : (t == u)%Q -> rne t = rne u.
Proof.
  intros E. unfold rne. rewrite (Qfloor_comp _ _ E).
  assert (E' : (t - inject_Z (Qfloor u) == u - inject_Z (Qfloor u))%Q)
    by (rewrite E; reflexivity).
  by rewrite (Qcompare_comp _ _ E' _ _ (Qeq_refl (1 # 2))).
Qed.

Lemma rne_mono (t u : Q) : (t <= u)%Q -> (rne t <= rne u)%Z.
Proof.
  intros Htu. pose proof (Qfloor_resp_le t u Htu) as Hf.
  destruct (Z.eq_dec (Qfloor t) (Qfloor u)) as [E|N].
  - unfold rne. rewrite E.
    destruct (Qcompare_spec (t - inject_Z (Qfloor u)) (1 # 2)) as [A|A|A];
      destruct (Qcompare_spec (u - inject_Z (Qfloor u)) (1 # 2)) as [B|B|B];
      try lia; try (exfalso; lra);
      destruct (Z.even (Qfloor u)); lia.
  - destruct (rne_cases t) as [-> | ->], (rne_cases u) as [-> | ->]; lia.
Qed.

Lemma rne_ge_Z (z : Z) (t : Q) : (inject_Z z <= t)%Q -> (z <= rne t)%Z.
Proof. intros H. rewrite <- (rne_Z z). by apply rne_mono. Qed.

Lemma rne_le_Z (z : Z) (t : Q) : (t <= inject_Z z)%Q -> (rne t <= z)%Z.
Proof. intros H. rewrite <- (rne_Z z). by apply rne_mono. Qed.

Lemma exponent_proper (x y : Q) :
  (0 < x)%Q -> (x == y)%Q -> exponent x = exponent y.
Proof. intros Hx E. unfold exponent. by rewrite (ilog2_proper x y Hx E). Qed.

Lemma exponent_mono (x y : Q) :
  (0 < x)%Q -> (x <= y)%Q -> (exponent x <= exponent y)%Z.
Proof.
  intros Hx H. unfold exponent. pose proof (ilog2_mono x y Hx H). lia.
Qed.

Lemma roundPos_proper (x y : Q) :
  (0 < x)%Q -> (x == y)%Q -> (roundPos x == roundPos y)%Q.
Proof.
  intros Hx E. unfold roundPos. rewrite (exponent_proper x y Hx E).
  rewrite (rne_proper (x / pow2 (exponent y)) (y / pow2 (exponent y)))
    by (rewrite E; reflexivity).
  reflexivity.
Qed.

Lemma roundPos_nonneg (x : Q) : (0 < x)%Q -> (0 <= roundPos x)%Q.
Proof.
  intros Hx. unfold roundPos. pose proof (pow2_pos (exponent x)) as Hp.
  apply Qmult_le_0_compat; [|lra].
  change 0%Q with (inject_Z 0). rewrite <- Zle_Qle. apply rne_ge_Z.
  change (inject_Z 0) with 0%Q. apply Qle_shift_div_l; [exact Hp|lra].
Qed.

(** A value below a power of two rounds to at most that power, and a
    value above a power of two to at least that power, once the power is a
    multiple of the spacing. *)
Lemma roundPos_le_pow2 (x : Q) (k : Z) :
  (0 < x)%Q -> (x <= pow2 k)%Q -> (exponent x <= k)%Z ->
  (roundPos x <= pow2 k)%Q.
Proof.
  intros Hx H He. unfold roundPos. set (e := exponent x) in *.
  pose proof (pow2_pos e) as Hp.
  assert (Hk : (pow2 k == inject_Z (2 ^ (k - e)) * pow2 e)%Q).
  { rewrite <- pow2_Z by lia. rewrite <- pow2_add. f_equiv. lia. }
  rewrite Hk. apply Qmult_le_compat_r; [|lra].
  rewrite <- Zle_Qle. apply rne_le_Z.
  apply Qle_shift_div_r; [exact Hp|]. by rewrite <- Hk.
Qed.

Lemma roundPos_ge_pow2 (x : Q) (k : Z) :
  (0 < x)%Q -> (pow2 k <= x)%Q -> (exponent x <= k)%Z ->
  (pow2 k <= roundPos x)%Q.
Proof.
  intros Hx H He. unfold roundPos. set (e := exponent x) in *.
  pose proof (pow2_pos e) as Hp.
  assert (Hk : (pow2 k == inject_Z (2 ^ (k - e)) * pow2 e)%Q).
  { rewrite <- pow2_Z by lia. rewrite <- pow2_add. f_equiv. lia. }
  rewrite Hk. apply Qmult_le_compat_r; [|lra].
  rewrite <- Zle_Qle. apply rne_ge_Z.
  apply Qle_shift_div_l; [exact Hp|]. by rewrite <- Hk.
Qed.

Lemma roundPos_mono (x y : Q) :
  (0 < x)%Q -> (x <= y)%Q -> (roundPos x <= roundPos y)%Q.
Proof.
  intros Hx Hxy.
  assert (Hy : (0 < y)%Q) by (eapply Qlt_le_trans; eassumption).
  pose proof (exponent_mono x y Hx Hxy) as He.
  destruct (Z.eq_dec (exponent x) (exponent y)) as [E|N].
  - unfold roundPos. rewrite E. pose proof (pow2_pos (exponent y)) as Hp.
    apply Qmult_le_compat_r; [|lra]. rewrite <- Zle_Qle. apply rne_mono.
    apply Qmult_le_compat_r; [exact Hxy|].
    apply Qlt_le_weak, Qinv_lt_0_compat, Hp.
  - (* the spacing grows between x and y: a power of two lies between *)
    assert (Hlt : (exponent x < exponent y)%Z) by lia.
    assert (Hey : exponent y = (ilog2 y - 52)%Z) by (unfold exponent in *; lia).
    assert (Hly : (ilog2 x < ilog2 y)%Z) by (unfold exponent in *; lia).
    destruct (ilog2_spec x Hx) as [_ Sx], (ilog2_spec y Hy) as [Sy _].
    apply Qle_trans with (pow2 (ilog2 y)).
    + apply roundPos_le_pow2; [exact Hx| |lia].
      apply Qlt_le_weak. eapply Qlt_le_trans; [exact Sx|].
      apply pow2_le. lia.
    + apply roundPos_ge_pow2; [exact Hy|exact Sy|lia].
Qed.

Lemma roundPos_error (x : Q) (k : Z) :
  (0 < x)%Q -> (x <= pow2 k)%Q -> (emin <= k - 52)%Z ->
  (Qabs (roundPos x - x) <= pow2 (k - 53))%Q.
Proof.
  intros Hx H Hk. unfold roundPos. set (e := exponent x).
  pose proof (pow2_pos e) as Hp.
  assert (He : (e <= k - 52)%Z).
  { subst e. unfold exponent. pose proof (ilog2_le x k Hx H). lia. }
  pose proof (rne_error (x / pow2 e)) as Hr.
  set (n := inject_Z (rne (x / pow2 e))) in *.
  assert (E : (n * pow2 e - x == (n - x / pow2 e) * pow2 e)%Q)
    by (field; lra).
  rewrite E, Qabs_Qmult, (Qabs_pos (pow2 e)) by lra.
  apply Qle_trans with ((1 # 2) * pow2 e)%Q.
  - apply Qmult_le_compat_r; [exact Hr|lra].
  - assert (Hh : ((1 # 2) * pow2 e == pow2 (e - 1))%Q).
    { rewrite pow2_sub. change (pow2 1) with 2%Q. field. }
    rewrite Hh. apply pow2_le. lia.
Qed.

Lemma roundPos_dyadic (m j : Z) :
  (0 < m < 2 ^ 53)%Z -> (emin <= j)%Z ->
  (roundPos (inject_Z m * pow2 j) == inject_Z m * pow2 j)%Q.
Proof.
  intros Hm Hj. set (x := (inject_Z m * pow2 j)%Q).
  pose proof (pow2_pos j) as Hpj.
  assert (Hm0 : (0 < inject_Z m)%Q)
    by (change 0%Q with (inject_Z 0); rewrite <- Zlt_Qlt; lia).
  assert (Hx : (0 < x)%Q) by (subst x; nra).
  assert (Hlt : (x < pow2 (53 + j))%Q).
  { subst x. rewrite pow2_add. apply Qmult_lt_compat_r; [exact Hpj|].
    rewrite pow2_Z by lia. rewrite <- Zlt_Qlt. lia. }
  pose proof (ilog2_lt x (53 + j) Hx Hlt) as Hl.
  assert (He : (exponent x <= j)%Z) by (unfold exponent; lia).
  unfold roundPos. set (e := exponent x) in *.
  pose proof (pow2_pos e) as Hp.
  assert (Ej : (pow2 j == inject_Z (2 ^ (j - e)) * pow2 e)%Q).
  { rewrite <- pow2_Z by lia. rewrite <- pow2_add. f_equiv. lia. }
  assert (Et : (x / pow2 e == inject_Z (m * 2 ^ (j - e)))%Q).
  { subst x. rewrite inject_Z_mult, Ej. field. lra. }
  rewrite (rne_proper _ _ Et), rne_Z.
  subst x. rewrite inject_Z_mult, Ej. ring.
Qed.

Lemma round_pos (x : Q) : (0 < x)%Q -> round x = roundPos x.
Proof.
  intros H. apply Qnum_pos in H. unfold round.
  destruct (Qnum x); [lia|reflexivity|lia].
Qed.

Lemma round_neg (x : Q) : (x < 0)%Q -> round x = (- roundPos (- x))%Q.
Proof.
  intros H. assert (Qnum x < 0)%Z by (unfold Qlt in H; simpl in H; lia).
  unfold round. destruct (Qnum x); [lia|lia|reflexivity].
Qed.

Lemma round_zero (x : Q) : (x == 0)%Q -> round x = 0%Q.
Proof.
  intros H. assert (Qnum x = 0)%Z by (unfold Qeq in H; simpl in H; lia).
  unfold round. by rewrite H0.
Qed.

Lemma round_cases (x : Q) :
  ((x == 0)%Q /\ round x = 0%Q)
  \/ ((0 < x)%Q /\ round x = roundPos x)
  \/ ((x < 0)%Q /\ round x = (- roundPos (- x))%Q).
Proof.
  destruct (Q_dec x 0) as [[H|H]|H].
  - right. right. split; [exact H|by apply round_neg].
  - right. left. split; [exact H|by apply round_pos].
  - left. split; [exact H|by apply round_zero].
Qed.

Lemma round_proper (x y : Q) : (x == y)%Q -> (round x == round y)%Q.
Proof.
  intros E.
  destruct (round_cases x) as [[Hx ->]|[[Hx ->]|[Hx ->]]].
  - rewrite (round_zero y) by (rewrite <- E; exact Hx). reflexivity.
  - rewrite (round_pos y) by (rewrite <- E; exact Hx).
    by apply roundPos_proper.
  - rewrite (round_neg y) by (rewrite <- E; exact Hx).
    apply Qopp_comp. apply roundPos_proper; [lra|by rewrite E].
Qed.

#[global] Instance round_Proper : Proper (Qeq ==> Qeq) round.
Proof. intros x y E. by apply round_proper. Qed.

Lemma round_nonneg (x : Q) : (0 <= x)%Q -> (0 <= round x)%Q.
Proof.
  intros H. destruct (round_cases x) as [[Hx ->]|[[Hx ->]|[Hx ->]]].
  - lra.
  - by apply roundPos_nonneg.
  - exfalso. lra.
Qed.

Lemma round_nonpos (x : Q) : (x <= 0)%Q -> (round x <= 0)%Q.
Proof.
  intros H. destruct (round_cases x) as [[Hx ->]|[[Hx ->]|[Hx ->]]].
  - lra.
  - exfalso. lra.
  - assert (0 <= roundPos (- x))%Q by (apply roundPos_nonneg; lra). lra.
Qed.

(** Rounding is monotone. *)
Lemma round_mono (x y : Q) : (x <= y)%Q -> (round x <= round y)%Q.
Proof.
  intros H.
  destruct (round_cases x) as [[Hx Ex]|[[Hx Ex]|[Hx Ex]]].
  - rewrite Ex. apply round_nonneg. lra.
  - rewrite Ex, (round_pos y) by lra. by apply roundPos_mono.
  - destruct (Qlt_le_dec y 0) as [Hy|Hy].
    + rewrite Ex, (round_neg y) by exact Hy.
      apply Qopp_le_compat. apply roundPos_mono; lra.
    + apply Qle_trans with 0%Q; [apply round_nonpos; lra|by apply round_nonneg].
Qed.

(** The error of one rounding, for a value of magnitude at most [2^k]. *)
Lemma round_error (x : Q) (k : Z) :
  (Qabs x <= pow2 k)%Q -> (emin <= k - 52)%Z ->
  (Qabs (round x - x) <= pow2 (k - 53))%Q.
Proof.
  intros H Hk. pose proof (pow2_pos (k - 53)) as Hp.
  destruct (round_cases x) as [[Hx ->]|[[Hx ->]|[Hx ->]]].
  - assert (E : (0 - x == 0)%Q) by (rewrite Hx; ring).
    rewrite E. change (Qabs 0) with 0%Q. lra.
  - rewrite Qabs_pos in H by lra. by apply roundPos_error.
  - rewrite Qabs_neg in H by lra.
    assert (E : (- roundPos (- x) - x == - (roundPos (- x) - - x))%Q) by ring.
    rewrite E, Qabs_opp. apply roundPos_error; [lra|exact H|exact Hk].
Qed.

(** Every [m * 2^j] with [|m| < 2^53] and [j >= -1074] is a double. *)
Lemma isDouble_dyadic (m j : Z) :
  (Z.abs m < 2 ^ 53)%Z -> (emin <= j)%Z -> isDouble (inject_Z m * pow2 j).
Proof.
  intros Hm Hj. unfold isDouble. pose proof (pow2_pos j) as Hp.
  destruct (Z.lt_trichotomy m 0) as [Hn|[->|Hn]].
  - assert (Hm0 : (inject_Z m < 0)%Q)
      by (change 0%Q with (inject_Z 0); rewrite <- Zlt_Qlt; lia).
    assert (Hx : (inject_Z m * pow2 j < 0)%Q).
    { assert (0 < (- inject_Z m) * pow2 j)%Q
        by (apply Qmult_lt_0_compat; lra).
      lra. }
    rewrite round_neg by exact Hx.
    assert (E : (- (inject_Z m * pow2 j) == inject_Z (- m) * pow2 j)%Q)
      by (rewrite inject_Z_opp; ring).
    assert (Hx' : (0 < - (inject_Z m * pow2 j))%Q) by lra.
    rewrite (roundPos_proper _ _ Hx' E).
    rewrite roundPos_dyadic by lia. rewrite inject_Z_opp. ring.
  - rewrite round_zero by (change (inject_Z 0) with 0%Q; ring).
    change (inject_Z 0) with 0%Q. ring.
  - assert (Hm0 : (0 < inject_Z m)%Q)
      by (change 0%Q with (inject_Z 0); rewrite <- Zlt_Qlt; lia).
    rewrite round_pos by (apply Qmult_lt_0_compat; lra).
    apply roundPos_dyadic; lia.
Qed.

Lemma isDouble_Z (m : Z) : (Z.abs m < 2 ^ 53)%Z -> isDouble (inject_Z m).
Proof.
  intros H. unfold isDouble.
  assert (E : (inject_Z m == inject_Z m * pow2 0)%Q)
    by (change (pow2 0) with 1%Q; ring).
  rewrite E. apply isDouble_dyadic; [exact H|unfold emin; lia].
Qed.

(** A double below 1 is at most the largest double below 1. *)
Lemma isDouble_below_one (r : Q) :
  isDouble r -> (0 <= r)%Q -> (r < 1)%Q -> (r <= 1 - pow2 (-53))%Q.
Proof.
  unfold isDouble. intros Hd H0 H1.
  assert (Hq : (pow2 (-53) <= 1 # 2)%Q) by (vm_compute; discriminate).
  destruct (Qle_lt_or_eq _ _ H0) as [Hpos|Hz]; [|rewrite <- Hz; lra].
  rewrite round_pos in Hd by exact Hpos.
  change 1%Q with (pow2 0) in H1.
  pose proof (ilog2_lt r 0 Hpos H1) as Hl.
  destruct (ilog2_spec r Hpos) as [_ Su].
  destruct (Z.eq_dec (ilog2 r) (-1)%Z) as [E|N].
  - unfold roundPos in Hd.
    assert (He : exponent r = (-53)%Z) by (unfold exponent, emin; lia).
    rewrite He in Hd. set (n := rne (r / pow2 (-53))) in *.
    assert (Hn : (n < 2 ^ 53)%Z).
    { rewrite Zlt_Qlt. rewrite <- pow2_Z by lia.
      apply Qmult_lt_r with (pow2 (-53)); [apply pow2_pos|].
      rewrite Hd, <- pow2_add. exact H1. }
    assert (Hn' : (inject_Z n <= inject_Z (2 ^ 53 - 1))%Q)
      by (rewrite <- Zle_Qle; lia).
    rewrite <- Hd.
    assert (E2 : (1 - pow2 (-53) == inject_Z (2 ^ 53 - 1) * pow2 (-53))%Q)
      by (vm_compute; reflexivity).
    rewrite E2. apply Qmult_le_compat_r; [exact Hn'|].
    apply Qlt_le_weak, pow2_pos.
  - assert (Hh : (pow2 (ilog2 r + 1) <= pow2 (-1))%Q) by (apply pow2_le; lia).
    change (pow2 (-1)) with (1 # 2)%Q in Hh. lra.
Qed.

End Binary64Facts.

Import Binary64Facts.

(** ** The aggregator *)

Lemma someClass_hasClass name batch :
  someClass name batch = true <-> hasClass name batch.
Proof.
  unfold someClass, hasClass. rewrite existsb_exists, Exists_exists.
  split; intros (det & Hin & Hc); exists det; split;
    try (apply list_elem_of_In; exact Hin);
    try (apply list_elem_of_In in Hin; exact Hin);
    by apply String.eqb_eq.
Qed.

Lemma someClass_decide name batch :
  someClass name batch = bool_decide (hasClass name batch).
Proof.
  destruct (someClass name batch) eqn:E; symmetry.
  - apply bool_decide_eq_true, someClass_hasClass, E.
  - apply bool_decide_eq_false. intros H%someClass_hasClass. congruence.
Qed.

Lemma safe_flag_spec (helmet jacket : Prop) `{!Decision helmet, !Decision jacket} :
  (if bool_decide helmet && bool_decide jacket then 1 else 0)
  = if decide (helmet /\ jacket) then 1 else 0.
Proof. repeat case_bool_decide; case_decide; simpl; tauto. Qed.

Lemma violation_flag_spec (n safe : nat) :
  (if (0 <? n)%nat && negb (truthy safe) then 1 else 0)
  = if decide (0 < n /\ safe = 0)%nat then 1 else 0.
Proof.
  unfold truthy. destruct (Nat.ltb_spec 0 n), (Nat.eqb_spec safe 0);
    simpl; case_decide; first [ reflexivity | exfalso; lia | tauto ].
Qed.

(** Claim C1.  For every batch, both aggregators ([updateStats] of the
    video page and [updateDetectionStats] of the webcam page) set the total
    to the number of detections of the batch; set the safe count to 1 when
    the batch holds a detection of class "Protective Helmet" and one of
    class "Safety Jacket", and to 0 otherwise; and set the violation count
    to 1 when the batch is not empty and the safe count is 0, and to 0
    otherwise. *)
Theorem aggregator_safe_and_violation_flags (batch : list Detection) :
  VideoDetectionPage.totalDetections (VideoDetectionPage.updateStats batch)
  = length batch
  /\ VideoDetectionPage.safeWorkers (VideoDetectionPage.updateStats batch)
  = (if decide (hasClass "Protective Helmet" batch /\
                hasClass "Safety Jacket" batch) then 1 else 0)
  /\ VideoDetectionPage.violations (VideoDetectionPage.updateStats batch)
  = (if decide (0 < length batch /\
                VideoDetectionPage.safeWorkers
                  (VideoDetectionPage.updateStats batch) = 0)%nat
     then 1 else 0)
  /\ LiveWebcamPage.totalDetections (LiveWebcamPage.updateDetectionStats batch)
  = length batch
  /\ LiveWebcamPage.safeWorkers (LiveWebcamPage.updateDetectionStats batch)
  = (if decide (hasClass "Protective Helmet" batch /\
                hasClass "Safety Jacket" batch) then 1 else 0)
  /\ LiveWebcamPage.violations (LiveWebcamPage.updateDetectionStats batch)
  = (if decide (0 < length batch /\
                LiveWebcamPage.safeWorkers
                  (LiveWebcamPage.updateDetectionStats batch) = 0)%nat
     then 1 else 0).
Proof.
  unfold VideoDetectionPage.updateStats, LiveWebcamPage.updateDetectionStats.
  cbn [VideoDetectionPage.safeWorkers VideoDetectionPage.violations
       VideoDetectionPage.totalDetections LiveWebcamPage.safeWorkers
       LiveWebcamPage.violations LiveWebcamPage.totalDetections].
  rewrite !someClass_decide.
  repeat split;
    first [ reflexivity | apply safe_flag_spec | apply violation_flag_spec ].
Qed.

(** Claim C4.  On the empty batch both aggregators yield total 0, safe
    count 0, violation count 0 and average confidence 0. *)
Theorem aggregator_empty_batch :
  VideoDetectionPage.updateStats []
  = {| VideoDetectionPage.totalDetections := 0;
       VideoDetectionPage.safeWorkers := 0;
       VideoDetectionPage.violations := 0;
       VideoDetectionPage.avgConfidence := 0 |}
  /\ LiveWebcamPage.updateDetectionStats []
  = {| LiveWebcamPage.totalDetections := 0;
       LiveWebcamPage.safeWorkers := 0;
       LiveWebcamPage.violations := 0;
       LiveWebcamPage.confidence := 0 |}.
Proof. split; reflexivity. Qed.

Lemma Qlength_map {A B} (f : A -> B) (l : list A) :
  Qlength (map f l) = Qlength l.
Proof. unfold Qlength. by rewrite length_map. Qed.

Lemma Qlength_cons {A} (x : A) (l : list A) :
  (Qlength (x :: l) == Qlength l + 1)%Q.
Proof.
  unfold Qlength. cbn [length]. rewrite Nat2Z.inj_succ.
  unfold Z.succ. rewrite inject_Z_plus. reflexivity.
Qed.

Lemma Qlength_nonneg {A} (l : list A) : (0 <= Qlength l)%Q.
Proof. unfold Qlength, Qle. simpl. lia. Qed.

Lemma Qlength_pos {A} (l : list A) : l <> [] -> (1 <= Qlength l)%Q.
Proof.
  intros Hne. destruct l as [|x l]; [done|].
  rewrite Qlength_cons. pose proof (Qlength_nonneg l). lra.
Qed.

Lemma Qlength_le {A} (l : list A) (n : Z) :
  (Z.of_nat (length l) <= n)%Z -> (Qlength l <= inject_Z n)%Q.
Proof. intros H. unfold Qlength. by rewrite <- Zle_Qle. Qed.

Lemma Qsum_bounds (lo hi : Q) (l : list Q) :
  Forall (fun x => lo <= x /\ x <= hi)%Q l ->
  (Qlength l * lo <= Qsum l /\ Qsum l <= Qlength l * hi)%Q.
Proof.
  induction 1 as [|x l [Hlo Hhi] _ [IHlo IHhi]].
  - change (Qlength (@nil Q)) with 0%Q. cbn [Qsum]. lra.
  - cbn [Qsum]. rewrite Qlength_cons. split; nra.
Qed.

Lemma Qabs_bound (x b : Q) : (Qabs x <= b)%Q <-> (- b <= x /\ x <= b)%Q.
Proof. apply Qabs_Qle_condition. Qed.

(** The sum of the aggregators is the exact sum up to one rounding of
    2^-37 per addition, for at most 65535 confidences of [[0,1]]. *)
Lemma fold_add_error (batch : list Detection) : forall (s S k : Q),
  confidencesInUnit batch ->
  (0 <= S /\ S <= k)%Q ->
  (k + Qlength batch <= 65535)%Q ->
  (Qabs (s - S) <= k * Binary64.pow2 (-37))%Q ->
  (Qabs (fold_left (fun sum det => Binary64.add sum (confidence det)) batch s
         - (S + Qsum (map confidence batch)))
   <= (k + Qlength batch) * Binary64.pow2 (-37))%Q.
Proof.
  induction batch as [|det rest IH]; intros s S k Hall HS Hk Hs.
  - cbn [fold_left map Qsum]. change (Qlength (@nil Detection)) with 0%Q.
    apply Qabs_bound in Hs. apply Qabs_bound. lra.
  - apply Forall_cons in Hall as [[Hc0 Hc1] Hall].
    rewrite Qlength_cons in Hk. pose proof (Qlength_nonneg rest) as Hn.
    cbn [fold_left map Qsum].
    set (c := confidence det) in *.
    assert (Hd : (Binary64.pow2 (-37) == 1 # 137438953472)%Q) by reflexivity.
    assert (Hkd : (0 <= k * Binary64.pow2 (-37) /\ k * Binary64.pow2 (-37) <= 1)%Q).
    { rewrite Hd. lra. }
    apply Qabs_bound in Hs.
    assert (He : (Qabs (Binary64.add s c - (s + c)) <= Binary64.pow2 (16 - 53))%Q).
    { apply round_error; [|unfold Binary64.emin; lia].
      change (Binary64.pow2 16) with 65536%Q. apply Qabs_bound. lra. }
    change (16 - 53)%Z with (-37)%Z in He. apply Qabs_bound in He.
    specialize (IH (Binary64.add s c) (S + c)%Q (k + 1)%Q Hall).
    assert (IH' := IH ltac:(lra) ltac:(lra)
                     ltac:(apply Qabs_bound; rewrite Hd in *; lra)).
    apply Qabs_bound in IH'. apply Qabs_bound.
    rewrite Qlength_cons. lra.
Qed.

Lemma sumConfidence_error (batch : list Detection) :
  confidencesInUnit batch ->
  (Qlength batch <= 65535)%Q ->
  (Qabs (sumConfidence batch - Qsum (map confidence batch))
   <= Qlength batch * Binary64.pow2 (-37))%Q.
Proof.
  intros Hall Hn.
  pose proof (fold_add_error batch 0 0 0 Hall ltac:(lra) ltac:(lra)
                ltac:(apply Qabs_bound; lra)) as H.
  apply Qabs_bound in H. apply Qabs_bound. unfold sumConfidence. lra.
Qed.

(** The stored percentage is within 7.3e-10 of 100 times the mean. *)
Lemma percent_mean_error (batch : list Detection) :
  batch <> [] ->
  (Z.of_nat (length batch) <= 65535)%Z ->
  confidencesInUnit batch ->
  (Qabs (Binary64.mul
           (Binary64.div (sumConfidence batch) (Qlength batch)) 100
         - 100 * arithmeticMean (map confidence batch))
   <= 73 # 100000000000)%Q.
Proof.
  intros Hne Hlen Hall.
  apply Qlength_le in Hlen. change (inject_Z 65535) with 65535%Q in Hlen.
  pose proof (Qlength_pos batch Hne) as Hn.
  pose proof (sumConfidence_error batch Hall Hlen) as Hs.
  assert (Hb : Forall (fun x => 0 <= x /\ x <= 1)%Q (map confidence batch)).
  { apply Forall_map. exact Hall. }
  apply Qsum_bounds in Hb. rewrite Qlength_map in Hb.
  unfold arithmeticMean. rewrite Qlength_map.
  set (n := Qlength batch) in *. set (s := sumConfidence batch) in *.
  set (S := Qsum (map confidence batch)) in *.
  assert (Hd : (Binary64.pow2 (-37) == 1 # 137438953472)%Q) by reflexivity.
  rewrite Hd in Hs. apply Qabs_bound in Hs.
  assert (Hi : (0 < / n)%Q) by (apply Qinv_lt_0_compat; lra).
  assert (Hin : (n * / n == 1)%Q) by (apply Qmult_inv_r; lra).
  assert (Hs1 : (s / n == s * / n)%Q) by reflexivity.
  assert (HS1 : (S / n == S * / n)%Q) by reflexivity.
  assert (HM : (0 <= S * / n /\ S * / n <= 1)%Q) by (split; nra).
  assert (Hq0 : (- (1 # 137438953472) <= s * / n - S * / n
                 /\ s * / n - S * / n <= 1 # 137438953472)%Q) by (split; nra).
  assert (Hq : (Qabs (Binary64.div s n - s / n) <= Binary64.pow2 (1 - 53))%Q).
  { apply round_error; [|unfold Binary64.emin; lia].
    change (Binary64.pow2 1) with 2%Q. rewrite Hs1. apply Qabs_bound. lra. }
  change (Binary64.pow2 (1 - 53)) with (1 # 4503599627370496)%Q in Hq.
  apply Qabs_bound in Hq. rewrite Hs1 in Hq.
  assert (Hp : (Qabs (Binary64.mul (Binary64.div s n) 100
                      - Binary64.div s n * 100)
                <= Binary64.pow2 (7 - 53))%Q).
  { apply round_error; [|unfold Binary64.emin; lia].
    change (Binary64.pow2 7) with 128%Q. apply Qabs_bound. lra. }
  change (Binary64.pow2 (7 - 53)) with (1 # 70368744177664)%Q in Hp.
  apply Qabs_bound in Hp. apply Qabs_bound. rewrite HS1. lra.
Qed.

(** Exact bounds: a sum of confidences between [lo] and [hi] stays between
    the multiples of [lo] and [hi], when these multiples are doubles. *)
Lemma fold_add_bounds (lo hi : Q) (batch : list Detection) : forall (s : Q) (k : Z),
  (forall j : Z, (k < j <= k + Z.of_nat (length batch))%Z ->
     Binary64.isDouble (inject_Z j * lo)
     /\ Binary64.isDouble (inject_Z j * hi)) ->
  Forall (fun det => lo <= confidence det /\ confidence det <= hi)%Q batch ->
  (inject_Z k * lo <= s /\ s <= inject_Z k * hi)%Q ->
  (inject_Z (k + Z.of_nat (length batch)) * lo
   <= fold_left (fun sum det => Binary64.add sum (confidence det)) batch s
   /\ fold_left (fun sum det => Binary64.add sum (confidence det)) batch s
      <= inject_Z (k + Z.of_nat (length batch)) * hi)%Q.
Proof.
  induction batch as [|det rest IH]; intros s k Hd Hall Hs.
  - cbn [fold_left length]. replace (k + Z.of_nat 0)%Z with k by lia. exact Hs.
  - apply Forall_cons in Hall as [[Hc0 Hc1] Hall].
    cbn [fold_left].
    replace (k + Z.of_nat (length (det :: rest)))%Z
      with ((k + 1) + Z.of_nat (length rest))%Z by (cbn [length]; lia).
    apply IH; [|exact Hall|].
    + intros j Hj. apply Hd. cbn [length]. lia.
    + destruct (Hd (k + 1)%Z) as [Dlo Dhi]; [cbn [length]; lia|].
      unfold Binary64.isDouble in Dlo, Dhi.
      rewrite inject_Z_plus in *. change (inject_Z 1) with 1%Q in *.
      split.
      * rewrite <- Dlo. apply round_mono. lra.
      * rewrite <- Dhi. apply round_mono. lra.
Qed.

Lemma percent_mean_bounds (lo hi : Q) (batch : list Detection) :
  batch <> [] ->
  (forall j : Z, (0 < j <= Z.of_nat (length batch))%Z ->
     Binary64.isDouble (inject_Z j * lo)
     /\ Binary64.isDouble (inject_Z j * hi)) ->
  Binary64.isDouble (100 * lo) -> Binary64.isDouble (100 * hi) ->
  Forall (fun det => lo <= confidence det /\ confidence det <= hi)%Q batch ->
  (100 * lo
   <= Binary64.mul (Binary64.div (sumConfidence batch) (Qlength batch)) 100
   /\ Binary64.mul (Binary64.div (sumConfidence batch) (Qlength batch)) 100
      <= 100 * hi)%Q.
Proof.
  intros Hne Hd Dlo Dhi Hall.
  pose proof (Qlength_pos batch Hne) as Hn.
  assert (H0 : (inject_Z 0 * lo <= 0 /\ 0 <= inject_Z 0 * hi)%Q)
    by (change (inject_Z 0) with 0%Q; lra).
  pose proof (fold_add_bounds lo hi batch 0 0 Hd Hall H0) as Hs.
  fold (sumConfidence batch) in Hs.
  change (inject_Z (0 + Z.of_nat (length batch))) with (Qlength batch) in Hs.
  destruct (Hd 1%Z) as [D1lo D1hi].
  { destruct batch; [done|]. cbn [length]. lia. }
  change (inject_Z 1) with 1%Q in D1lo, D1hi.
  unfold Binary64.isDouble in *.
  set (n := Qlength batch) in *. set (s := sumConfidence batch) in *.
  assert (Hi : (0 < / n)%Q) by (apply Qinv_lt_0_compat; lra).
  assert (Hin : (n * / n == 1)%Q) by (apply Qmult_inv_r; lra).
  assert (Hs1 : (s / n == s * / n)%Q) by reflexivity.
  assert (Hq : (lo <= Binary64.div s n /\ Binary64.div s n <= hi)%Q).
  { assert (E1 : (Binary64.round lo == lo)%Q)
      by (rewrite (round_proper lo (1 * lo)) by ring; rewrite D1lo; ring).
    assert (E2 : (Binary64.round hi == hi)%Q)
      by (rewrite (round_proper hi (1 * hi)) by ring; rewrite D1hi; ring).
    assert (Llo : (lo * (n * / n) == lo)%Q) by (rewrite Hin; ring).
    assert (Lhi : (hi * (n * / n) == hi)%Q) by (rewrite Hin; ring).
    assert (Plo : (0 <= (s - n * lo) * / n)%Q)
      by (apply Qmult_le_0_compat; lra).
    assert (Phi : (0 <= (n * hi - s) * / n)%Q)
      by (apply Qmult_le_0_compat; lra).
    split.
    - rewrite <- E1. apply round_mono. rewrite Hs1. lra.
    - rewrite <- E2. apply round_mono. rewrite Hs1. lra. }
  split.
  - rewrite <- Dlo. apply round_mono. lra.
  - rewrite <- Dhi. apply round_mono. lra.
Qed.

(** The multiples of 0, of 1/2 and of 1 are doubles. *)
Lemma isDouble_multiples (n : Z) (j : Z) :
  (n < 2 ^ 53)%Z -> (0 < j <= n)%Z ->
  Binary64.isDouble (inject_Z j * 0)
  /\ Binary64.isDouble (inject_Z j * (1 # 2))
  /\ Binary64.isDouble (inject_Z j * 1).
Proof.
  intros Hn Hj. unfold Binary64.isDouble. split; [|split].
  - rewrite (round_proper _ 0) by ring. rewrite round_zero by reflexivity. ring.
  - pose proof (isDouble_dyadic j (-1)) as H. unfold Binary64.isDouble in H.
    change (Binary64.pow2 (-1)) with (1 # 2)%Q in H.
    apply H; [lia|unfold Binary64.emin; lia].
  - pose proof (isDouble_Z j) as H. unfold Binary64.isDouble in H.
    rewrite (round_proper _ (inject_Z j)) by ring.
    rewrite H by lia. ring.
Qed.

(** Claim C2, as stated, fails: on the batch of a helmet at 0.9 and a
    jacket at 0.8 (non-empty, confidences in [[0,1]]) the mean is 0.85 up
    to the rounding of the two literals, and both aggregators store
    85.000000000000014, a percentage, which is not within 1e-9 of the
    mean. *)
Lemma average_confidence_differs_from_mean :
  helmetAndJacketDoubles <> []
  /\ confidencesInUnit helmetAndJacketDoubles
  /\ (Qabs (arithmeticMean (map confidence helmetAndJacketDoubles) - 0.85)
      < 1e-16)%Q
  /\ (VideoDetectionPage.avgConfidence
        (VideoDetectionPage.updateStats helmetAndJacketDoubles)
      == 85 + Binary64.pow2 (-46))%Q
  /\ (LiveWebcamPage.confidence
        (LiveWebcamPage.updateDetectionStats helmetAndJacketDoubles)
      == 85 + Binary64.pow2 (-46))%Q
  /\ ~ (Qabs (VideoDetectionPage.avgConfidence
                (VideoDetectionPage.updateStats helmetAndJacketDoubles)
              - arithmeticMean (map confidence helmetAndJacketDoubles))
        < 1e-9)%Q
  /\ ~ (Qabs (LiveWebcamPage.confidence
                (LiveWebcamPage.updateDetectionStats helmetAndJacketDoubles)
              - arithmeticMean (map confidence helmetAndJacketDoubles))
        < 1e-9)%Q.
Proof.
  split; [discriminate|].
  split; [repeat constructor; vm_compute; discriminate|].
  split; [vm_compute; reflexivity|].
  split; [vm_compute; reflexivity|].
  split; [vm_compute; reflexivity|].
  split; intros H; vm_compute in H; discriminate H.
Qed.

(** Claim C2, amended.  For every batch of at most 65535 detections with
    confidences in [[0,1]], the average-confidence field of the stats of
    both aggregators is 0 when the batch is empty, and otherwise 100 times
    the arithmetic mean of the batch's confidences (a percentage), within
    1e-9. *)
Theorem average_confidence_is_percent_mean (batch : list Detection) :
  (Z.of_nat (length batch) <= 65535)%Z ->
  confidencesInUnit batch ->
  (batch = [] ->
   VideoDetectionPage.avgConfidence (VideoDetectionPage.updateStats batch)
   = 0%Q
   /\ LiveWebcamPage.confidence (LiveWebcamPage.updateDetectionStats batch)
      = 0%Q)
  /\ (batch <> [] ->
      (Qabs (VideoDetectionPage.avgConfidence
               (VideoDetectionPage.updateStats batch)
             - 100 * arithmeticMean (map confidence batch)) < 1e-9)%Q
      /\ (Qabs (LiveWebcamPage.confidence
                  (LiveWebcamPage.updateDetectionStats batch)
                - 100 * arithmeticMean (map confidence batch)) < 1e-9)%Q).
Proof.
  intros Hlen Hall. split.
  - intros ->. split; reflexivity.
  - intros Hne.
    pose proof (percent_mean_error batch Hne Hlen Hall) as H.
    unfold VideoDetectionPage.updateStats, LiveWebcamPage.updateDetectionStats.
    cbn [VideoDetectionPage.avgConfidence LiveWebcamPage.confidence].
    destruct batch as [|det rest]; [done|].
    cbn [length Nat.ltb Nat.leb].
    split; (eapply Qle_lt_trans; [exact H|reflexivity]).
Qed.

(** Claim C2, amended, at a concrete input: the helmet at 0.9 and the
    jacket at 0.8. *)
Lemma average_confidence_witness :
  (Qabs (VideoDetectionPage.avgConfidence
           (VideoDetectionPage.updateStats helmetAndJacketDoubles)
         - 100 * arithmeticMean (map confidence helmetAndJacketDoubles))
   < 1e-9)%Q.
Proof.
  refine (proj1 (proj2 (average_confidence_is_percent_mean
                          helmetAndJacketDoubles _ _) _)).
  - simpl. lia.
  - repeat constructor; vm_compute; discriminate.
  - discriminate.
Defined.

(** ** The overlay renderer *)

Section RendererFacts.

Variable toFixed1 : Q -> string.
Variable measureText : string -> string -> Q.

Local Abbreviation drawDetection := (VideoProcessor.drawDetection toFixed1 measureText).
Local Abbreviation drawDetections := (VideoProcessor.drawDetections toFixed1 measureText).




End RendererFacts.


(** ** The detector *)

Lemma isLoaded_is_Some (w : World) :
  YOLODetector.isLoaded w = bool_decide (is_Some (model w)).
Proof.
  unfold YOLODetector.isLoaded.
  destruct (model w); symmetry;
    [apply bool_decide_eq_true; eauto
    |apply bool_decide_eq_false; intros [? ?]; discriminate].
Qed.

(** Claim C8.  For every model path and every outcome of the model
    construction, [loadModel] returns a boolean and does not throw: [true]
    when the construction succeeded, and then the model is stored; [false]
    when it threw, and then the stored model is what it was.  Afterwards
    [isLoaded] tells whether a model is stored. *)
Theorem loadModel_returns_boolean
  (tfSequential : JsResult GraphModel) (modelPath : string) (w : World) :
  exists (b : bool) (w' : World),
    YOLODetector.loadModel tfSequential modelPath w = (Ok b, w')
    /\ match tfSequential with
       | Ok m => b = true /\ model w' = Some m
       | Throw _ => b = false /\ model w' = model w
       end
    /\ YOLODetector.isLoaded w' = bool_decide (is_Some (model w')).
Proof.
  destruct tfSequential as [m|e]; eexists _, _;
    (split; [reflexivity|]);
    (split; [split; reflexivity|apply isLoaded_is_Some]).
Qed.

Lemma Qfloor_scaled_range (r : Q) (k : Z) :
  (0 < k)%Z -> (0 <= r)%Q -> (r < 1)%Q ->
  (0 <= Qfloor (r * inject_Z k) < k)%Z.
Proof.
  intros Hk H0 H1.
  assert (Hk' : (0 < inject_Z k)%Q) by (unfold Qlt; simpl; lia).
  split.
  - change 0%Z with (Qfloor 0). apply Qfloor_resp_le. nra.
  - rewrite Zlt_Qlt.
    apply Qle_lt_trans with (r * inject_Z k)%Q; [apply Qfloor_le|nra].
Qed.

Lemma index_in_range (arr : list string) (i : Z) :
  (0 <= i < Z.of_nat (length arr))%Z -> YOLODetector.index arr i ∈ arr.
Proof.
  intros Hi. unfold YOLODetector.index.
  destruct (Z.ltb_spec i 0); [lia|].
  destruct (lookup_lt_is_Some_2 arr (Z.to_nat i)) as [x Hx]; [lia|].
  rewrite Hx. simpl. by eapply list_elem_of_lookup_2.
Qed.

(** The doubles that the mock generator makes of one value of
    [Math.random()]. *)
Lemma mock_random_ranges (r : Q) :
  (0 <= r)%Q -> (r < 1)%Q -> Binary64.isDouble r ->
  (0.5 <= Binary64.add 0.5 (Binary64.mul r 0.5)
   /\ Binary64.add 0.5 (Binary64.mul r 0.5) <= 1)%Q
  /\ (0 <= Binary64.mul r 400 /\ Binary64.mul r 400 < 400)%Q
  /\ (0 <= Binary64.mul r 300 /\ Binary64.mul r 300 < 300)%Q
  /\ (50 <= Binary64.add 50 (Binary64.mul r 100)
      /\ Binary64.add 50 (Binary64.mul r 100) <= 150)%Q
  /\ (0 <= Qfloor (Binary64.mul r 7) < 7)%Z.
Proof.
  intros H0 H1 Hd.
  pose proof (isDouble_below_one r Hd H0 H1) as Hmax.
  change (Binary64.pow2 (-53)) with (1 # 9007199254740992)%Q in Hmax.
  unfold Binary64.add, Binary64.mul.
  assert (R0 : forall c, (0 <= c)%Q -> (0 <= Binary64.round (r * c))%Q).
  { intros c Hc. apply round_nonneg. nra. }
  assert (Rhalf : (Binary64.round (r * 0.5) <= 0.5)%Q).
  { apply Qle_trans with (Binary64.round 0.5); [apply round_mono; lra|].
    vm_compute. discriminate. }
  assert (R100 : (Binary64.round (r * 100) <= 100)%Q).
  { apply Qle_trans with (Binary64.round 100); [apply round_mono; lra|].
    vm_compute. discriminate. }
  assert (R400 : (Binary64.round (r * 400) < 400)%Q).
  { apply Qle_lt_trans
      with (Binary64.round ((1 - (1 # 9007199254740992)) * 400));
      [apply round_mono; lra|]. vm_compute. reflexivity. }
  assert (R300 : (Binary64.round (r * 300) < 300)%Q).
  { apply Qle_lt_trans
      with (Binary64.round ((1 - (1 # 9007199254740992)) * 300));
      [apply round_mono; lra|]. vm_compute. reflexivity. }
  assert (R7 : (Binary64.round (r * 7) < 7)%Q).
  { apply Qle_lt_trans
      with (Binary64.round ((1 - (1 # 9007199254740992)) * 7));
      [apply round_mono; lra|]. vm_compute. reflexivity. }
  pose proof (R0 0.5%Q ltac:(lra)). pose proof (R0 100%Q ltac:(lra)).
  pose proof (R0 400%Q ltac:(lra)). pose proof (R0 300%Q ltac:(lra)).
  pose proof (R0 7%Q ltac:(lra)) as R7'.
  split; [split|].
  { apply Qle_trans with (Binary64.round 0.5); [vm_compute; discriminate|].
    apply round_mono. lra. }
  { apply Qle_trans with (Binary64.round 1); [apply round_mono; lra|].
    vm_compute. discriminate. }
  split; [split; assumption|]. split; [split; assumption|].
  split; [split|].
  { apply Qle_trans with (Binary64.round 50); [vm_compute; discriminate|].
    apply round_mono. lra. }
  { apply Qle_trans with (Binary64.round 150); [apply round_mono; lra|].
    vm_compute. discriminate. }
  split.
  - change 0%Z with (Qfloor 0). apply Qfloor_resp_le. exact R7'.
  - rewrite Zlt_Qlt. eapply Qle_lt_trans; [apply Qfloor_le|exact R7].
Qed.

Lemma pushDetections_shape (n : nat) : forall (detections : list Detection) (w : World),
  randomInUnit w ->
  randomIsDouble w ->
  exists (new : list Detection) (w' : World),
    YOLODetector.pushDetections n detections w = (Ok (detections ++ new), w')
    /\ length new = n
    /\ Forall mockRanged new.
Proof.
  induction n as [|n IH]; intros detections w Hr Hd.
  - exists [], w. rewrite app_nil_r. repeat split; constructor.
  - cbn [YOLODetector.pushDetections].
    unfold mbind, Js_bind, Math_random. cbn [drawn entropy set_drawn].
    set (acc := (detections ++ _)%list).
    set (w6 := set_drawn _ _).
    destruct (IH acc w6) as (new & w' & Hrun & Hlen & Hall).
    { intros k. apply Hr. }
    { intros k. apply Hd. }
    subst acc. rewrite <- app_assoc in Hrun.
    eexists (_ :: new), w'. split; [exact Hrun|].
    split; [simpl; by rewrite Hlen|].
    constructor; [|exact Hall].
    assert (Hm : forall k, _) by
      (exact (fun k => mock_random_ranges (entropy w k)
                         (proj1 (Hr k)) (proj2 (Hr k)) (Hd k))).
    destruct (Hm (drawn w)) as (_ & _ & _ & _ & Hi).
    destruct (Hm (S (drawn w))) as (Hc & _).
    destruct (Hm (S (S (drawn w)))) as (_ & Hx & _).
    destruct (Hm (S (S (S (drawn w))))) as (_ & _ & Hy & _).
    destruct (Hm (S (S (S (S (drawn w)))))) as (_ & _ & _ & Hw & _).
    destruct (Hm (S (S (S (S (S (drawn w))))))) as (_ & _ & _ & Hh & _).
    unfold mockRanged. cbn [confidence class bbox fst snd].
    split; [exact Hc|]. split; [apply index_in_range; exact Hi|].
    exact (conj Hx (conj Hy (conj Hw Hh))).
Qed.

(** Claim C10, as stated, fails: when [Math.random()] returns the largest
    double below 1, which is inside its range [[0, 1)], the successful
    [detect] returns detections of confidence 1 and of width and height
    150: the sums [0.5 + r * 0.5] and [50 + r * 100] round up to the
    bounds that the claim excludes. *)
Lemma detect_reaches_closed_upper_bounds :
  YOLODetector.isLoaded edgeWorld = true
  /\ randomInUnit edgeWorld
  /\ randomIsDouble edgeWorld
  /\ exists (det : Detection) (rest : list Detection) (w' : World),
       YOLODetector.detect (Ok tt) edgeWorld = (Ok (det :: rest), w')
       /\ (confidence det == 1)%Q
       /\ ((bbox det).1.2 == 150)%Q
       /\ ((bbox det).2 == 150)%Q
       /\ ~ mockShaped det.
Proof.
  split; [reflexivity|].
  split; [intros n; split; vm_compute; [discriminate|reflexivity]|].
  split; [intros n; vm_compute; reflexivity|].
  eexists _, _, _. split; [vm_compute; reflexivity|].
  split; [vm_compute; reflexivity|].
  split; [vm_compute; reflexivity|].
  split; [vm_compute; reflexivity|].
  intros ((_ & H) & _). vm_compute in H. discriminate H.
Qed.

(** Claim C10, amended.  Whenever the model is loaded and [Math.random()]
    returns doubles of [[0, 1)], a [detect] call whose tensor conversion
    succeeds returns a batch of between 1 and 4 detections, each with
    confidence in [[0.5, 1]], a class of the 7-element class list, x in
    [[0, 400)], y in [[0, 300)], width and height in [[50, 150]]; the batch
    is never empty. *)
Theorem detect_success_is_mock_ranged (w : World) :
  YOLODetector.isLoaded w = true ->
  randomInUnit w ->
  randomIsDouble w ->
  length YOLODetector.classNames = 7 /\
  exists (detections : list Detection) (w' : World),
    YOLODetector.detect (Ok tt) w = (Ok detections, w')
    /\ 1 <= length detections <= 4
    /\ detections <> []
    /\ Forall mockRanged detections.
Proof.
  intros Hm Hr Hd. split; [reflexivity|].
  unfold YOLODetector.isLoaded in Hm. unfold YOLODetector.detect.
  destruct (model w) as [m|]; [|discriminate].
  unfold try_catch, YOLODetector.generateMockDetections.
  unfold mbind, Js_bind, settled, Math_random.
  set (w1 := set_drawn _ _).
  destruct (Hr (drawn w)) as [H0 H1].
  pose proof (Qfloor_scaled_range (entropy w (drawn w)) 4 eq_refl H0 H1) as Hn.
  change (inject_Z 4) with 4%Q in Hn.
  remember (Qfloor (entropy w (drawn w) * 4)) as numMinus1 eqn:Heq. clear Heq.
  destruct (pushDetections_shape (Z.to_nat (numMinus1 + 1)) [] w1)
    as (new & w' & Hrun & Hlen & Hall).
  { intros k. apply Hr. }
  { intros k. apply Hd. }
  rewrite Hrun. cbn [app]. exists new, w'.
  split; [reflexivity|].
  split; [lia|]. split; [|exact Hall].
  intros ->. simpl in Hlen. lia.
Qed.

(** Claim C10, amended, at a concrete input: the idle page with the model
    loaded and [Math.random()] stuck at 0.5. *)
Lemma detect_success_witness :
  exists (detections : list Detection) (w' : World),
    YOLODetector.detect (Ok tt) (idleWorld (Some DummyModel))
    = (Ok detections, w')
    /\ 1 <= length detections <= 4
    /\ detections <> []
    /\ Forall mockRanged detections.
Proof.
  refine (proj2 (detect_success_is_mock_ranged
                   (idleWorld (Some DummyModel)) eq_refl _ _)).
  - intros n. simpl. lra.
  - intros n. vm_compute. reflexivity.
Defined.

(** ** The webcam hook *)

Lemma stop_all_lookup (l : list nat) : forall (m : gmap nat useWebcam.ReadyState) (track : nat),
  foldl (fun tracks track => useWebcam.stop track tracks) m l !! track
  = if decide (track ∈ l) then Some useWebcam.Ended else m !! track.
Proof.
  induction l as [|t l IH]; intros m track; cbn [foldl].
  - rewrite decide_False; [done|apply not_elem_of_nil].
  - rewrite IH. unfold useWebcam.stop.
    destruct (decide (track ∈ l)) as [Hin|Hnin].
    + rewrite decide_True; [done|by right].
    + destruct (decide (track = t)) as [->|Hne].
      * rewrite decide_True; [|by left]. by rewrite lookup_insert_eq.
      * rewrite decide_False; [by rewrite lookup_insert_ne|].
        intros [->|?]%elem_of_cons; done.
Qed.

(** Claim C9.  For every hook state that holds a stream, [stopWebcam]
    stops every track of the stream and leaves the other tracks as they
    were; afterwards the stream reference is cleared, [isActive] is false
    and [error] is null.  Nothing of the pipeline is read. *)
Theorem stopWebcam_releases_every_track
  (h : useWebcam.Hook) (stream : useWebcam.MediaStream) :
  useWebcam.streamRef h = Some stream ->
  (forall track, track ∈ useWebcam.getTracks stream ->
     useWebcam.tracks (useWebcam.stopWebcam h) !! track = Some useWebcam.Ended)
  /\ (forall track, track ∉ useWebcam.getTracks stream ->
        useWebcam.tracks (useWebcam.stopWebcam h) !! track
        = useWebcam.tracks h !! track)
  /\ useWebcam.streamRef (useWebcam.stopWebcam h) = None
  /\ useWebcam.isActive (useWebcam.stopWebcam h) = false
  /\ useWebcam.error (useWebcam.stopWebcam h) = None.
Proof.
  intros Hs. unfold useWebcam.stopWebcam. rewrite Hs.
  cbn [useWebcam.tracks useWebcam.streamRef useWebcam.isActive useWebcam.error].
  repeat split; intros track Ht; rewrite stop_all_lookup.
  - by rewrite decide_True.
  - by rewrite decide_False.
Qed.

(** Claim C9 at a concrete input: the session opened by [startWebcam] on a
    one-track camera stream. *)
Lemma stopWebcam_witness :
  useWebcam.streamRef activeHook = Some cameraStream
  /\ (forall track, track ∈ useWebcam.getTracks cameraStream ->
        useWebcam.tracks (useWebcam.stopWebcam activeHook) !! track
        = Some useWebcam.Ended)
  /\ useWebcam.streamRef (useWebcam.stopWebcam activeHook) = None
  /\ useWebcam.isActive (useWebcam.stopWebcam activeHook) = false
  /\ useWebcam.error (useWebcam.stopWebcam activeHook) = None.
Proof.
  split; [reflexivity|].
  pose proof (stopWebcam_releases_every_track activeHook cameraStream eq_refl)
    as (H1 & _ & H3 & H4 & H5).
  exact (conj H1 (conj H3 (conj H4 H5))).
Defined.

(** ** The frame pipeline *)

Section PipelineFacts.

Import VideoProcessor.

Lemma sameLoopState_refl w : sameLoopState w w.
Proof. repeat split. Qed.

Lemma sameLoopState_trans w1 w2 w3 :
  sameLoopState w1 w2 -> sameLoopState w2 w3 -> sameLoopState w1 w3.
Proof.
  unfold sameLoopState. intros H12 H23.
  destruct H12 as (?&?&?&?&?&?&?&?&?&?), H23 as (?&?&?&?&?&?&?&?&?&?).
  repeat split; congruence.
Qed.

Lemma pushDetections_frame (n : nat) : forall detections w,
  sameLoopState w (snd (YOLODetector.pushDetections n detections w)).
Proof.
  induction n as [|n IH]; intros detections w; [apply sameLoopState_refl|].
  cbn [YOLODetector.pushDetections].
  unfold mbind, Js_bind, Math_random.
  eapply sameLoopState_trans; [|apply IH]. repeat split.
Qed.

Lemma detect_frame (fromPixels : JsResult unit) (w : World) :
  sameLoopState w (snd (YOLODetector.detect fromPixels w)).
Proof.
  unfold YOLODetector.detect.
  destruct (model w); [|apply sameLoopState_refl].
  unfold try_catch, YOLODetector.generateMockDetections.
  unfold mbind, Js_bind, settled, Math_random.
  destruct fromPixels as [[]|e]; [|repeat split].
  match goal with
  | |- context [YOLODetector.pushDetections ?n ?d ?w1] =>
      pose proof (pushDetections_frame n d w1) as H;
      destruct (YOLODetector.pushDetections n d w1) as [[a|e] w2]
  end; simpl in *;
    (eapply sameLoopState_trans; [|exact H]); repeat split.
Qed.

(** [processFrame] up to its [await]: on a paused or ended video it does
    nothing at all; otherwise it suspends one more activation and
    registers nothing with the browser. *)
Lemma processFrame_begin_skip fromPixels w :
  paused (videoElement w) || ended (videoElement w) = true ->
  processFrame_begin fromPixels w = w.
Proof. intros H. unfold processFrame_begin. by rewrite H. Qed.

Lemma processFrame_begin_loop fromPixels w :
  paused (videoElement w) || ended (videoElement w) = false ->
  exists promise,
    suspended (processFrame_begin fromPixels w) = suspended w ++ [promise]
    /\ rafCallbacks (processFrame_begin fromPixels w) = rafCallbacks w
    /\ rafHandle (processFrame_begin fromPixels w) = rafHandle w
    /\ animationId (processFrame_begin fromPixels w) = animationId w.
Proof.
  intros H. unfold processFrame_begin. rewrite H.
  set (w1 := snd (emit _ _)).
  pose proof (detect_frame fromPixels w1) as Hf.
  destruct (YOLODetector.detect fromPixels w1) as [promise w2].
  destruct Hf as (_&_&_&_&_&_&Ha&Hc&Hh&Hs). simpl in *.
  exists promise. by rewrite Hs, Hc, Hh, Ha.
Qed.

(** [processFrame] after its [await] registers exactly one new callback
    and records its handle. *)
Lemma processFrame_resume_loop promise w :
  rafCallbacks (processFrame_resume promise w)
  = rafCallbacks w ++ [(rafHandle w + 1)%Z]
  /\ rafHandle (processFrame_resume promise w) = (rafHandle w + 1)%Z
  /\ animationId (processFrame_resume promise w) = Some (rafHandle w + 1)%Z
  /\ suspended (processFrame_resume promise w) = suspended w.
Proof.
  unfold processFrame_resume, try_catch, mbind, Js_bind, settled.
  destruct promise as [detections|e]; [destruct (hasOnDetection w)|];
    repeat split.
Qed.

(** The invariant of a page that runs one loop: at most one tick is
    pending, and a tick registered with the browser is the one whose
    handle [animationId] holds. *)
Lemma singleLoop_invariant w :
  singleLoop w ->
  (0 <= rafHandle w)%Z
  /\ ((rafCallbacks w = [] /\ length (suspended w) <= 1)
      \/ (exists id, rafCallbacks w = [id] /\ animationId w = Some id
                     /\ id <> 0%Z /\ suspended w = [])).
Proof.
  induction 1 as [w Hc Hs Hh|w e Hw IH Hstart].
  - split; [done|]. left. rewrite Hs. simpl. split; [done|lia].
  - destruct IH as [Hh IH]. destruct e as [fp|id fp| | |v]; cbn [step].
    + (* processVideo is called with nothing pending *)
      specialize (Hstart eq_refl). unfold scheduled in Hstart.
      destruct (rafCallbacks w) eqn:Hc, (suspended w) eqn:Hs; try discriminate.
      destruct (paused (videoElement w) || ended (videoElement w)) eqn:Hp.
      * rewrite processFrame_begin_skip by done.
        split; [done|]. left. rewrite Hc, Hs. simpl. split; [done|lia].
      * destruct (processFrame_begin_loop fp w Hp) as (p & H1 & H2 & H3 & _).
        rewrite H3, H2, H1, Hc, Hs. split; [done|]. left. simpl.
        split; [done|lia].
    + (* the browser runs a callback *)
      case_bool_decide as Hin; [|by split].
      destruct IH as [[Hc _]|(id' & Hc & Ha & Hne & Hs)];
        [rewrite Hc in Hin; by apply elem_of_nil in Hin|].
      rewrite Hc in Hin. apply list_elem_of_singleton in Hin as ->.
      rewrite Hc. cbn [filter list_filter].
      rewrite decide_False by (intros Hn; by apply Hn).
      set (w0 := set_raf [] (rafHandle w) w).
      destruct (paused (videoElement w0) || ended (videoElement w0)) eqn:Hp.
      * rewrite processFrame_begin_skip by done.
        split; [done|]. left. simpl. rewrite Hs. simpl. split; [done|lia].
      * destruct (processFrame_begin_loop fp w0 Hp) as (p & H1 & H2 & H3 & _).
        rewrite H3, H2, H1. simpl. rewrite Hs. split; [done|]. left. simpl.
        split; [done|lia].
    + (* a suspended activation continues *)
      destruct (suspended w) as [|p rest] eqn:Hs; [by rewrite Hs in *|].
      destruct IH as [[Hc Hl]|(id' & _ & _ & _ & Hs')]; [|congruence].
      destruct rest; [|simpl in Hl; lia].
      destruct (processFrame_resume_loop p (set_suspended [] w))
        as (H1 & H2 & H3 & H4).
      rewrite H1, H2, H3, H4. simpl. rewrite Hc.
      split; [lia|]. right. exists (rafHandle w + 1)%Z.
      repeat split; try done. lia.
    + (* stopProcessing *)
      unfold stopProcessing.
      destruct (animationId w) as [id|] eqn:Ha; [|by rewrite Ha in *].
      destruct (Z.eqb_spec id 0); [by rewrite Ha in *|].
      split; [done|]. left. simpl.
      destruct IH as [[Hc Hl]|(id' & Hc & Ha' & Hne & Hs)]; rewrite Hc.
      * by split.
      * assert (id' = id) as -> by congruence.
        cbn [filter list_filter].
        rewrite decide_False by (intros Hn; by apply Hn).
        split; [done|]. rewrite Hs. simpl. lia.
    + (* the video changes *)
      by split.
Qed.

(** Once nothing is pending, nothing happens any more until
    [processVideo] is called again. *)
Lemma ended_loop_step w e :
  scheduled w = false -> isCallProcessVideo e = false ->
  scheduled (step w e) = false /\ effects (step w e) = effects w.
Proof.
  unfold scheduled. intros Hs He.
  destruct (rafCallbacks w) eqn:Hc, (suspended w) eqn:Hsu; try discriminate.
  destruct e as [fp|id fp| | |v]; try discriminate; cbn [step].
  - rewrite Hc. rewrite bool_decide_eq_false_2 by apply not_elem_of_nil.
    by rewrite Hc, Hsu.
  - rewrite Hsu. cbv iota. by rewrite Hc, Hsu.
  - unfold stopProcessing. destruct (animationId w) as [id|];
      [destruct (Z.eqb_spec id 0)|]; simpl; by rewrite Hc, Hsu.
  - simpl. by rewrite Hc, Hsu.
Qed.

Lemma ended_loop_run events : forall w,
  scheduled w = false ->
  forallb (fun e => negb (isCallProcessVideo e)) events = true ->
  scheduled (run w events) = false /\ effects (run w events) = effects w.
Proof.
  induction events as [|e events IH]; intros w Hs He; [done|].
  simpl in He. apply andb_prop in He as [He Hes].
  apply negb_true_iff in He.
  destruct (ended_loop_step w e Hs He) as [Hs' Hf].
  unfold run. cbn [foldl]. fold (run (step w e) events).
  destruct (IH (step w e) Hs' Hes) as [? ?]. split; congruence.
Qed.

(** In an ended loop a cleared handle stays cleared. *)
Lemma ended_loop_step_handle w e :
  scheduled w = false -> isCallProcessVideo e = false ->
  animationId w = None -> animationId (step w e) = None.
Proof.
  unfold scheduled. intros Hs He Ha.
  destruct (rafCallbacks w) eqn:Hc, (suspended w) eqn:Hsu; try discriminate.
  destruct e as [fp|id fp| | |v]; try discriminate; cbn [step].
  - rewrite Hc. by rewrite bool_decide_eq_false_2 by apply not_elem_of_nil.
  - by rewrite Hsu.
  - unfold stopProcessing. by rewrite Ha.
  - exact Ha.
Qed.

Lemma ended_loop_run_handle events : forall w,
  scheduled w = false ->
  forallb (fun e => negb (isCallProcessVideo e)) events = true ->
  animationId w = None -> animationId (run w events) = None.
Proof.
  induction events as [|e events IH]; intros w Hs He Ha; [done|].
  simpl in He. apply andb_prop in He as [He Hes].
  apply negb_true_iff in He.
  destruct (ended_loop_step w e Hs He) as [Hs' _].
  unfold run. cbn [foldl]. fold (run (step w e) events).
  apply IH; [exact Hs'|exact Hes|by apply ended_loop_step_handle].
Qed.

(** A run of [processFrame] on a paused or ended video changes nothing
    of the world, but for the callback that the browser took off its
    list to run it. *)
Lemma paused_tick_step w e :
  runsProcessFrame w e = true ->
  paused (videoElement w) || ended (videoElement w) = true ->
  step w e = set_raf (rafCallbacksAfterFrame w e) (rafHandle w) w.
Proof.
  intros He Hp. destruct e as [fp|id fp| | |v]; try discriminate; cbn [step].
  - rewrite processFrame_begin_skip by done. by destruct w.
  - simpl in He. rewrite He. by rewrite processFrame_begin_skip.
Qed.

End PipelineFacts.

Section PipelineClaims.

Import VideoProcessor.

(** Claim C3, as stated, fails: [stopProcessing] is called while the first
    detection is in flight (nothing is registered yet, so nothing is
    cancelled); when the detection resolves, the renderer and the callback
    are both called with its batch and the next tick is registered. *)
Lemma stop_does_not_discard_in_flight_detection :
  isEmpty (suspended stoppedInFlight) = false
  /\ List.filter isRenderOrAggregate (effects stoppedInFlight) = []
  /\ (exists detections,
        detections <> []
        /\ effects (step stoppedInFlight PromiseSettled)
           = effects stoppedInFlight
             ++ [ CallDrawDetections detections 1280 720;
                  CallOnDetection detections ])
  /\ rafCallbacks (step stoppedInFlight PromiseSettled) = [1%Z]
  /\ scheduled (step stoppedInFlight PromiseSettled) = true.
Proof.
  split; [vm_compute; reflexivity|]. split; [vm_compute; reflexivity|].
  split; [|split; vm_compute; reflexivity].
  eexists. split; [|vm_compute; reflexivity]. discriminate.
Qed.

(** Claim C3, amended.  For every page that runs one loop, when
    [stopProcessing] is called while no detection is in flight, the
    registered tick is cancelled and the handle [animationId] is cleared:
    no callback is registered with the browser any more, and whatever
    happens afterwards, short of a new call of [processVideo], causes no
    renderer call, no callback call and no effect at all, no tick is
    scheduled, and the handle stays cleared. *)
Theorem stopProcessing_cancels_registered_tick
  (w : World) (events : list Event) :
  singleLoop w ->
  suspended w = [] ->
  forallb (fun e => negb (isCallProcessVideo e)) events = true ->
  rafCallbacks (step w CallStopProcessing) = []
  /\ (rafCallbacks w <> [] \/ animationId w <> Some 0%Z ->
      animationId (step w CallStopProcessing) = None)
  /\ effects (run (step w CallStopProcessing) events) = effects w
  /\ scheduled (run (step w CallStopProcessing) events) = false
  /\ (rafCallbacks w <> [] \/ animationId w <> Some 0%Z ->
      animationId (run (step w CallStopProcessing) events) = None).
Proof.
  intros Hw Hs Hev.
  destruct (singleLoop_invariant w Hw) as [_ Hinv].
  assert (Hstop : rafCallbacks (step w CallStopProcessing) = []
                  /\ suspended (step w CallStopProcessing) = []
                  /\ effects (step w CallStopProcessing) = effects w
                  /\ (rafCallbacks w <> [] \/ animationId w <> Some 0%Z ->
                      animationId (step w CallStopProcessing) = None)).
  { cbn [step]. unfold stopProcessing.
    destruct Hinv as [[Hc _]|(id & Hc & Ha & Hne & _)].
    - destruct (animationId w) as [id|] eqn:Ha;
        [destruct (Z.eqb_spec id 0) as [->|Hne]|]; simpl;
        rewrite ?Hc, ?Hs; repeat split; try done.
      intros [H|H]; by destruct H.
    - rewrite Ha. destruct (Z.eqb_spec id 0); [done|]. simpl.
      rewrite Hc, Hs. cbn [filter list_filter].
      by rewrite decide_False by (intros Hn; by apply Hn). }
  destruct Hstop as (Hc' & Hs' & Heff & Hid).
  assert (Hsch : scheduled (step w CallStopProcessing) = false)
    by (unfold scheduled; by rewrite Hc', Hs').
  destruct (ended_loop_run events _ Hsch Hev) as [H1 H2].
  split; [exact Hc'|]. split; [exact Hid|].
  split; [congruence|]. split; [exact H1|].
  intros H. apply ended_loop_run_handle; [exact Hsch|exact Hev|by apply Hid].
Qed.

(** Claim C3, amended, at a concrete input: the second tick is registered
    under the handle 1, [stopProcessing] is called, then the browser
    reaches the cancelled frame and the video is paused. *)
Lemma stopProcessing_cancels_witness :
  animationId tickRegistered = Some 1%Z
  /\ rafCallbacks (step tickRegistered CallStopProcessing) = []
  /\ animationId (step tickRegistered CallStopProcessing) = None
  /\ effects (run (step tickRegistered CallStopProcessing)
                [ AnimationFrame 1 (Ok tt); PromiseSettled;
                  VideoChanged pausedVideo; AnimationFrame 2 (Ok tt) ])
     = effects tickRegistered
  /\ scheduled (run (step tickRegistered CallStopProcessing)
                  [ AnimationFrame 1 (Ok tt); PromiseSettled;
                    VideoChanged pausedVideo; AnimationFrame 2 (Ok tt) ])
     = false
  /\ animationId (run (step tickRegistered CallStopProcessing)
                    [ AnimationFrame 1 (Ok tt); PromiseSettled;
                      VideoChanged pausedVideo; AnimationFrame 2 (Ok tt) ])
     = None.
Proof.
  split; [vm_compute; reflexivity|].
  assert (Hloop : singleLoop tickRegistered).
  { change (singleLoop
              (step (step (idleWorld (Some DummyModel)) (CallProcessVideo (Ok tt)))
                 PromiseSettled)).
    apply singleLoop_step; [|discriminate].
    apply singleLoop_step; [|reflexivity].
    apply singleLoop_idle; [reflexivity|reflexivity|simpl; lia]. }
  assert (Hs : suspended tickRegistered = []) by (vm_compute; reflexivity).
  assert (Hreg : rafCallbacks tickRegistered <> []
                 \/ animationId tickRegistered <> Some 0%Z)
    by (right; vm_compute; discriminate).
  destruct (stopProcessing_cancels_registered_tick tickRegistered
              [ AnimationFrame 1 (Ok tt); PromiseSettled;
                VideoChanged pausedVideo; AnimationFrame 2 (Ok tt) ]
              Hloop Hs eq_refl)
    as (H1 & H2 & H3 & H4 & H5).
  exact (conj H1 (conj (H2 Hreg) (conj H3 (conj H4 (H5 Hreg))))).
Defined.

(** Claim C5, as stated, fails: the second tick is registered and the
    video is paused; when the browser runs the tick, nothing is scheduled
    any more, and after the video plays again no frame is ever processed. *)
Lemma paused_tick_ends_the_loop :
  rafCallbacks pausedWhileRegistered = [1%Z]
  /\ paused (videoElement pausedWhileRegistered) = true
  /\ scheduled pausedWhileRegistered = true
  /\ scheduled (step pausedWhileRegistered (AnimationFrame 1 (Ok tt))) = false
  /\ effects (run (step pausedWhileRegistered (AnimationFrame 1 (Ok tt)))
                [ VideoChanged playingVideo; AnimationFrame 1 (Ok tt);
                  AnimationFrame 2 (Ok tt); PromiseSettled ])
     = effects pausedWhileRegistered.
Proof.
  split; [vm_compute; reflexivity|].
  split; [vm_compute; reflexivity|].
  split; [vm_compute; reflexivity|].
  split; vm_compute; reflexivity.
Qed.

(** Claim C5, amended.  On every tick, that is on every run of
    [processFrame], by a call of [processVideo] or by a frame of the
    browser whose callback is still registered, where the video reports
    paused or ended, the pipeline performs no detection (no random value
    is read, no activation is suspended), makes no call and no stats
    update (the effects are what they were), and requests no further
    frame: no handle is issued, [animationId] is what it was, and no
    callback is registered (the frame that ran has only left the list).
    On a page that runs one loop at a time nothing is scheduled after
    such a tick, and, short of a new call of [processVideo], nothing
    happens any more: the loop has ended. *)
Theorem paused_tick_does_nothing_and_ends_loop
  (w : World) (e : Event) (events : list Event)
  (page : VideoDetectionPage.Page) :
  runsProcessFrame w e = true ->
  paused (videoElement w) || ended (videoElement w) = true ->
  effects (step w e) = effects w
  /\ drawn (step w e) = drawn w
  /\ suspended (step w e) = suspended w
  /\ videoPageAfter (effects (step w e)) page
     = videoPageAfter (effects w) page
  /\ rafHandle (step w e) = rafHandle w
  /\ animationId (step w e) = animationId w
  /\ rafCallbacks (step w e) = rafCallbacksAfterFrame w e
  /\ (singleLoop w ->
      (isCallProcessVideo e = true -> scheduled w = false) ->
      forallb (fun e' => negb (isCallProcessVideo e')) events = true ->
      scheduled (step w e) = false
      /\ effects (run (step w e) events) = effects w
      /\ scheduled (run (step w e) events) = false).
Proof.
  intros He Hp. rewrite (paused_tick_step w e He Hp).
  do 7 (split; [reflexivity|]).
  intros Hw Hstart Hev.
  assert (Hsch : scheduled (set_raf (rafCallbacksAfterFrame w e)
                              (rafHandle w) w) = false).
  { destruct e as [fp|id fp| | |v]; try discriminate.
    - specialize (Hstart eq_refl). unfold scheduled in *. exact Hstart.
    - simpl in He. apply bool_decide_eq_true in He.
      destruct (singleLoop_invariant w Hw) as [_ Hinv].
      destruct Hinv as [[Hc _]|(id' & Hc & Ha & Hne & Hs)];
        [rewrite Hc in He; by apply elem_of_nil in He|].
      assert (id = id') as ->
        by (rewrite Hc in He; by apply list_elem_of_singleton in He).
      unfold scheduled. cbn [rafCallbacksAfterFrame]. rewrite Hc.
      cbn [filter list_filter].
      rewrite decide_False by (intros Hn; by apply Hn).
      simpl. by rewrite Hs. }
  destruct (ended_loop_run events _ Hsch Hev) as [H1 H2].
  split; [exact Hsch|]. split; [exact H2|exact H1].
Qed.

(** Claim C5, amended, at a concrete input: the video is paused while the
    second tick is registered; the browser runs the tick, the video plays
    again, and the browser reaches a later frame. *)
Lemma paused_tick_witness :
  effects (step pausedWhileRegistered (AnimationFrame 1 (Ok tt)))
  = effects pausedWhileRegistered
  /\ rafHandle (step pausedWhileRegistered (AnimationFrame 1 (Ok tt)))
     = rafHandle pausedWhileRegistered
  /\ rafCallbacks (step pausedWhileRegistered (AnimationFrame 1 (Ok tt)))
     = []
  /\ scheduled (step pausedWhileRegistered (AnimationFrame 1 (Ok tt))) = false
  /\ effects (run (step pausedWhileRegistered (AnimationFrame 1 (Ok tt)))
                [ VideoChanged playingVideo; AnimationFrame 2 (Ok tt) ])
     = effects pausedWhileRegistered.
Proof.
  assert (Hloop : singleLoop pausedWhileRegistered).
  { change (singleLoop
              (step (step (step (idleWorld (Some DummyModel))
                             (CallProcessVideo (Ok tt)))
                       PromiseSettled)
                 (VideoChanged pausedVideo))).
    apply singleLoop_step; [|discriminate].
    apply singleLoop_step; [|discriminate].
    apply singleLoop_step; [|reflexivity].
    apply singleLoop_idle; [reflexivity|reflexivity|simpl; lia]. }
  assert (Hrun : runsProcessFrame pausedWhileRegistered
                   (AnimationFrame 1 (Ok tt)) = true)
    by (vm_compute; reflexivity).
  assert (Hp : paused (videoElement pausedWhileRegistered)
               || ended (videoElement pausedWhileRegistered) = true)
    by (vm_compute; reflexivity).
  destruct (paused_tick_does_nothing_and_ends_loop
              pausedWhileRegistered (AnimationFrame 1 (Ok tt))
              [ VideoChanged playingVideo; AnimationFrame 2 (Ok tt) ]
              pageWithStats Hrun Hp)
    as (H1 & _ & _ & _ & H5 & _ & H7 & H8).
  destruct (H8 Hloop ltac:(discriminate) eq_refl) as (H9 & H10 & _).
  split; [exact H1|]. split; [exact H5|].
  split; [rewrite H7; vm_compute; reflexivity|].
  split; [exact H9|exact H10].
Defined.

(** Claim C6, as stated, fails.  With the model loaded and a tensor
    conversion that throws, [detect] does return the empty batch, but the
    tick does not skip the render and the stats update: the renderer and
    the callback are called with the empty batch, and the page's stats are
    replaced by those of the empty batch.  With no model loaded, [detect]
    throws to its caller. *)
Lemma detection_fault_is_rendered_or_thrown :
  fst (YOLODetector.detect (Throw "boom") (idleWorld (Some DummyModel)))
  = Ok []
  /\ effects (run (idleWorld (Some DummyModel))
                [ CallProcessVideo (Throw "boom"); PromiseSettled ])
     = [ DrawImage 1280 720; ConsoleError "Detection error:" "boom";
         CallDrawDetections [] 1280 720; CallOnDetection [] ]
  /\ VideoDetectionPage.totalDetections
       (VideoDetectionPage.stats pageWithStats) = 2
  /\ VideoDetectionPage.stats
       (videoPageAfter
          (effects (run (idleWorld (Some DummyModel))
                      [ CallProcessVideo (Throw "boom"); PromiseSettled ]))
          pageWithStats)
     = VideoDetectionPage.updateStats []
  /\ fst (YOLODetector.detect (Ok tt) (idleWorld None))
     = Throw "Model not loaded".
Proof.
  split; [vm_compute; reflexivity|].
  split; [vm_compute; reflexivity|].
  split; [vm_compute; reflexivity|].
  split; vm_compute; reflexivity.
Qed.

(** Claim C6, amended.  On a tick of a playing video with no earlier
    detection in flight, when the detection faults:
    - with the model loaded and a tensor conversion that throws, [detect]
      logs the error and returns the empty batch; the pipeline then calls
      the renderer with the empty batch, and the callback too when one was
      given;
    - with no model loaded, [detect] throws "Model not loaded" to its
      caller and leaves the world as it was; the pipeline logs the error
      and calls neither the renderer nor the callback.
    In both cases the next tick is registered with the browser. *)
Theorem detection_fault_handling (w : World) (fromPixels : JsResult unit) :
  paused (videoElement w) || ended (videoElement w) = false ->
  suspended w = [] ->
  detectionFaults w fromPixels = true ->
  match model w, fromPixels with
  | Some _, Throw error =>
      YOLODetector.detect fromPixels w
      = (Ok [], snd (console_error "Detection error:" error w))
      /\ effects (run w [ CallProcessVideo fromPixels; PromiseSettled ])
         = effects w
           ++ [ DrawImage (orElse (videoWidth (videoElement w)) 640)
                  (orElse (videoHeight (videoElement w)) 480);
                ConsoleError "Detection error:" error;
                CallDrawDetections []
                  (orElse (videoWidth (videoElement w)) 640)
                  (orElse (videoHeight (videoElement w)) 480) ]
           ++ (if hasOnDetection w then [ CallOnDetection [] ] else [])
  | None, _ =>
      YOLODetector.detect fromPixels w = (Throw "Model not loaded", w)
      /\ effects (run w [ CallProcessVideo fromPixels; PromiseSettled ])
         = effects w
           ++ [ DrawImage (orElse (videoWidth (videoElement w)) 640)
                  (orElse (videoHeight (videoElement w)) 480);
                ConsoleError "Detection error:" "Model not loaded" ]
  | Some _, Ok _ => True
  end
  /\ rafCallbacks (run w [ CallProcessVideo fromPixels; PromiseSettled ])
     = rafCallbacks w ++ [ (rafHandle w + 1)%Z ]
  /\ scheduled (run w [ CallProcessVideo fromPixels; PromiseSettled ]) = true.
Proof.
  intros Hp Hs Hf. unfold detectionFaults in Hf.
  unfold run. cbn [foldl step]. unfold processFrame_begin. rewrite Hp.
  unfold YOLODetector.detect. cbn [model set_canvas emit modify snd set_effects].
  destruct (model w) as [m|] eqn:Hm.
  - destruct fromPixels as [[]|error]; [discriminate|].
    unfold try_catch, mbind, Js_bind, settled, console_error, emit, modify,
      mret, Js_ret.
    cbn [suspended set_suspended set_effects set_canvas]. rewrite Hs.
    cbn [app]. unfold processFrame_resume, try_catch, mbind, Js_bind, settled,
      console_error, emit, modify, mret, Js_ret, requestAnimationFrame, scheduled.
    destruct (hasOnDetection w) eqn:Hc; cbn; rewrite ?Hc; cbn;
      rewrite <- ?app_assoc; cbn [app];
      (split; [split; reflexivity|]); (split; [reflexivity|]);
      destruct (rafCallbacks w); reflexivity.
  - unfold throw. cbn [suspended set_suspended set_effects set_canvas].
    rewrite Hs. cbn [app].
    unfold processFrame_resume, try_catch, mbind, Js_bind, settled,
      console_error, emit, modify, mret, Js_ret, requestAnimationFrame, scheduled.
    cbn. rewrite <- ?app_assoc. cbn [app].
    (split; [split; reflexivity|]); (split; [reflexivity|]).
    destruct (rafCallbacks w); reflexivity.
Qed.

(** Claim C6, amended, at a concrete input: the idle page with the model
    loaded and a tensor conversion that throws. *)
Lemma detection_fault_witness :
  effects (run (idleWorld (Some DummyModel))
             [ CallProcessVideo (Throw "boom"); PromiseSettled ])
  = effects (idleWorld (Some DummyModel))
    ++ [ DrawImage 1280 720; ConsoleError "Detection error:" "boom";
         CallDrawDetections [] 1280 720 ]
    ++ [ CallOnDetection [] ]
  /\ scheduled (run (idleWorld (Some DummyModel))
                  [ CallProcessVideo (Throw "boom"); PromiseSettled ]) = true.
Proof.
  destruct (detection_fault_handling (idleWorld (Some DummyModel))
              (Throw "boom") eq_refl eq_refl eq_refl)
    as ((_ & H1) & _ & H3).
  exact (conj H1 H3).
Defined.

End PipelineClaims.

(** ** The rounding, checked against the primitive floats *)

(** Over the floats of the kernel the open upper bounds of the mock
    generator hold for a [Math.random()] of 52 random bits, and are reached
    by rounding at the largest double below 1: the confidence is then 1
    and the size 150. *)
Remark double_rounding_reaches_upper_bounds :
  PrimFloat.ltb Double.largestBelowOne 1 = true
  /\ PrimFloat.eqb (Double.confidence Double.largestBelowOne) 1 = true
  /\ PrimFloat.eqb (Double.size Double.largestBelowOne) 150 = true
  /\ PrimFloat.ltb (Double.confidence Double.largestBelowOne52) 1 = true
  /\ PrimFloat.ltb (Double.size Double.largestBelowOne52) 150 = true.
Proof. vm_compute. repeat split. Qed.

(** On the inputs of the two counterexamples the arithmetic of the
    embedding gives the values that the primitive floats give. *)
Remark rounding_agrees_with_primitive_floats :
  Double.denotes Double.largestBelowOne (1 - Binary64.pow2 (-53)) = true
  /\ Double.denotes (Double.confidence Double.largestBelowOne)
       (Binary64.add 0.5 (Binary64.mul (1 - Binary64.pow2 (-53)) 0.5)) = true
  /\ Double.denotes (Double.size Double.largestBelowOne)
       (Binary64.add 50 (Binary64.mul (1 - Binary64.pow2 (-53)) 100)) = true
  /\ Double.denotes Double.nineTenths (Binary64.round 0.9) = true
  /\ Double.denotes Double.eightTenths (Binary64.round 0.8) = true
  /\ Double.denotes (Double.percent Double.nineTenths Double.eightTenths)
       (VideoDetectionPage.avgConfidence
          (VideoDetectionPage.updateStats helmetAndJacketDoubles)) = true.
Proof. vm_compute. repeat split. Qed.

(** * Further properties of the code *)

(** ** The aggregators *)

(** Every non-empty batch is counted once, as safe or as a violation, and
    the empty batch as neither: on both pages the safe count and the
    violation count add up to 1, or to 0 on the empty batch. *)
Theorem aggregator_classifies_batch_once (batch : list Detection) :
  VideoDetectionPage.safeWorkers (VideoDetectionPage.updateStats batch)
  + VideoDetectionPage.violations (VideoDetectionPage.updateStats batch)
  = (if isEmpty batch then 0 else 1)
  /\ LiveWebcamPage.safeWorkers (LiveWebcamPage.updateDetectionStats batch)
     + LiveWebcamPage.violations (LiveWebcamPage.updateDetectionStats batch)
     = (if isEmpty batch then 0 else 1).
Proof.
  unfold VideoDetectionPage.updateStats, LiveWebcamPage.updateDetectionStats.
  cbn [VideoDetectionPage.safeWorkers VideoDetectionPage.violations
       LiveWebcamPage.safeWorkers LiveWebcamPage.violations].
  destruct batch as [|det rest]; [split; reflexivity|].
  cbn [isEmpty length Nat.ltb Nat.leb].
  destruct (someClass "Protective Helmet" (det :: rest)),
           (someClass "Safety Jacket" (det :: rest)); split; reflexivity.
Qed.

(** For confidences in the unit interval, and for confidences of at least
    one half, the bounds of the percentage are exact. *)
Lemma percent_bounds_unit (batch : list Detection) :
  batch <> [] ->
  (Z.of_nat (length batch) < 2 ^ 53)%Z ->
  confidencesInUnit batch ->
  (0 <= Binary64.mul (Binary64.div (sumConfidence batch) (Qlength batch)) 100
   /\ Binary64.mul (Binary64.div (sumConfidence batch) (Qlength batch)) 100
      <= 100)%Q.
Proof.
  intros Hne Hlen Hall.
  destruct (percent_mean_bounds 0 1 batch Hne) as [H1 H2]; [| | |exact Hall|].
  - intros j Hj.
    destruct (isDouble_multiples (Z.of_nat (length batch)) j Hlen Hj)
      as (D0 & _ & D1).
    by split.
  - vm_compute. reflexivity.
  - vm_compute. reflexivity.
  - split; lra.
Qed.

Lemma percent_bounds_half (batch : list Detection) :
  batch <> [] ->
  (Z.of_nat (length batch) < 2 ^ 53)%Z ->
  Forall (fun det => (1 # 2) <= confidence det /\ confidence det <= 1)%Q batch ->
  (50 <= Binary64.mul (Binary64.div (sumConfidence batch) (Qlength batch)) 100
   /\ Binary64.mul (Binary64.div (sumConfidence batch) (Qlength batch)) 100
      <= 100)%Q.
Proof.
  intros Hne Hlen Hall.
  destruct (percent_mean_bounds (1 # 2) 1 batch Hne) as [H1 H2];
    [| | |exact Hall|].
  - intros j Hj.
    destruct (isDouble_multiples (Z.of_nat (length batch)) j Hlen Hj)
      as (_ & Dh & D1).
    by split.
  - vm_compute. reflexivity.
  - vm_compute. reflexivity.
  - split; lra.
Qed.

(** The stored average confidence stays inside the percent range: for a
    non-empty batch with confidences in the unit interval the field lies
    between 0 and 100, on both pages, and between 50 and 100 when every
    confidence is at least one half.  The bounds are exact: the rounding
    of the sum, of the quotient and of the product never crosses them. *)
Theorem average_confidence_percent_bounds (batch : list Detection) :
  batch <> [] ->
  (Z.of_nat (length batch) < 2 ^ 53)%Z ->
  confidencesInUnit batch ->
  (0 <= VideoDetectionPage.avgConfidence
          (VideoDetectionPage.updateStats batch)
   /\ VideoDetectionPage.avgConfidence (VideoDetectionPage.updateStats batch)
      <= 100)%Q
  /\ (0 <= LiveWebcamPage.confidence
             (LiveWebcamPage.updateDetectionStats batch)
      /\ LiveWebcamPage.confidence (LiveWebcamPage.updateDetectionStats batch)
         <= 100)%Q
  /\ (Forall (fun det => (1 # 2) <= confidence det)%Q batch ->
      (50 <= VideoDetectionPage.avgConfidence
               (VideoDetectionPage.updateStats batch))%Q
      /\ (50 <= LiveWebcamPage.confidence
                  (LiveWebcamPage.updateDetectionStats batch))%Q).
Proof.
  intros Hne Hlen Hall.
  pose proof (percent_bounds_unit batch Hne Hlen Hall) as H.
  assert (Hh : Forall (fun det => (1 # 2) <= confidence det)%Q batch ->
               (50 <= Binary64.mul
                        (Binary64.div (sumConfidence batch) (Qlength batch))
                        100)%Q).
  { intros Hhalf. apply (percent_bounds_half batch Hne Hlen).
    apply Forall_forall. intros det Hin.
    rewrite Forall_forall in Hhalf. unfold confidencesInUnit in Hall.
    rewrite Forall_forall in Hall.
    split; [by apply Hhalf|by apply Hall]. }
  unfold VideoDetectionPage.updateStats, LiveWebcamPage.updateDetectionStats.
  cbn [VideoDetectionPage.avgConfidence LiveWebcamPage.confidence].
  destruct batch as [|det rest]; [done|].
  cbn [length Nat.ltb Nat.leb] in *.
  split; [exact H|]. split; [exact H|].
  intros Hhalf. split; by apply Hh.
Qed.

(** The bounds at a concrete input: the helmet at 0.9 and the jacket at
    0.8. *)
Lemma average_confidence_percent_bounds_witness :
  (50 <= VideoDetectionPage.avgConfidence
           (VideoDetectionPage.updateStats helmetAndJacketDoubles)
   /\ VideoDetectionPage.avgConfidence
        (VideoDetectionPage.updateStats helmetAndJacketDoubles) <= 100)%Q.
Proof.
  destruct (average_confidence_percent_bounds helmetAndJacketDoubles)
    as ((_ & H1) & _ & H2).
  - discriminate.
  - simpl. lia.
  - repeat constructor; vm_compute; discriminate.
  - split; [|exact H1]. apply H2.
    repeat constructor; vm_compute; discriminate.
Defined.

Lemma Qsum_Permutation (l l' : list Q) : l ≡ₚ l' -> (Qsum l == Qsum l')%Q.
Proof.
  induction 1 as [|x l l' _ IH|x y l|l l' l'' _ IH1 _ IH2]; cbn [Qsum].
  - reflexivity.
  - rewrite IH. reflexivity.
  - ring.
  - rewrite IH1. exact IH2.
Qed.

Lemma someClass_Permutation (name : string) (batch batch' : list Detection) :
  batch ≡ₚ batch' -> someClass name batch = someClass name batch'.
Proof.
  intros Hp. rewrite !someClass_decide. apply bool_decide_ext.
  unfold hasClass. rewrite !Exists_exists.
  split; intros (det & Hin & Hc); exists det; split; try done.
  - by rewrite <- Hp.
  - by rewrite Hp.
Qed.

(** The sum of the confidences is taken from left to right in doubles: the
    stored average of 0.1, 0.2, 0.3 and that of 0.3, 0.2, 0.1 differ, by
    2^-48. *)
Remark average_confidence_depends_on_order :
  (VideoDetectionPage.avgConfidence (VideoDetectionPage.updateStats threeGloves)
   - VideoDetectionPage.avgConfidence
       (VideoDetectionPage.updateStats (reverse threeGloves))
   == Binary64.pow2 (-48))%Q.
Proof. vm_compute. reflexivity. Qed.

(** The counts do not depend on the order of the detections, and the
    average depends on it by rounding only: two batches that hold the same
    detections in any order get the same total, safe count and violation
    count, on both pages; and when the batch has at most 65535 detections
    with confidences in the unit interval, the two average confidences
    differ by less than 1.5e-9. *)
Theorem aggregator_ignores_batch_order (batch batch' : list Detection) :
  batch ≡ₚ batch' ->
  (VideoDetectionPage.totalDetections (VideoDetectionPage.updateStats batch)
   = VideoDetectionPage.totalDetections (VideoDetectionPage.updateStats batch')
   /\ VideoDetectionPage.safeWorkers (VideoDetectionPage.updateStats batch)
      = VideoDetectionPage.safeWorkers (VideoDetectionPage.updateStats batch')
   /\ VideoDetectionPage.violations (VideoDetectionPage.updateStats batch)
      = VideoDetectionPage.violations (VideoDetectionPage.updateStats batch'))
  /\ (LiveWebcamPage.totalDetections (LiveWebcamPage.updateDetectionStats batch)
      = LiveWebcamPage.totalDetections
          (LiveWebcamPage.updateDetectionStats batch')
      /\ LiveWebcamPage.safeWorkers (LiveWebcamPage.updateDetectionStats batch)
         = LiveWebcamPage.safeWorkers
             (LiveWebcamPage.updateDetectionStats batch')
      /\ LiveWebcamPage.violations (LiveWebcamPage.updateDetectionStats batch)
         = LiveWebcamPage.violations
             (LiveWebcamPage.updateDetectionStats batch'))
  /\ ((Z.of_nat (length batch) <= 65535)%Z ->
      confidencesInUnit batch ->
      (Qabs (VideoDetectionPage.avgConfidence
               (VideoDetectionPage.updateStats batch)
             - VideoDetectionPage.avgConfidence
                 (VideoDetectionPage.updateStats batch')) < 1.5e-9)%Q
      /\ (Qabs (LiveWebcamPage.confidence
                  (LiveWebcamPage.updateDetectionStats batch)
                - LiveWebcamPage.confidence
                    (LiveWebcamPage.updateDetectionStats batch')) < 1.5e-9)%Q).
Proof.
  intros Hp.
  assert (Hlen : length batch = length batch') by (by rewrite Hp).
  split; [|split].
  - unfold VideoDetectionPage.updateStats.
    cbn [VideoDetectionPage.totalDetections VideoDetectionPage.safeWorkers
         VideoDetectionPage.violations].
    rewrite (someClass_Permutation "Protective Helmet" batch batch' Hp).
    rewrite (someClass_Permutation "Safety Jacket" batch batch' Hp).
    by rewrite Hlen.
  - unfold LiveWebcamPage.updateDetectionStats.
    cbn [LiveWebcamPage.totalDetections LiveWebcamPage.safeWorkers
         LiveWebcamPage.violations].
    rewrite (someClass_Permutation "Protective Helmet" batch batch' Hp).
    rewrite (someClass_Permutation "Safety Jacket" batch batch' Hp).
    by rewrite Hlen.
  - intros Hn Hall.
    assert (Hall' : confidencesInUnit batch').
    { unfold confidencesInUnit. by rewrite <- Hp. }
    unfold VideoDetectionPage.updateStats, LiveWebcamPage.updateDetectionStats.
    cbn [VideoDetectionPage.avgConfidence LiveWebcamPage.confidence].
    rewrite <- Hlen.
    destruct batch as [|det rest].
    { cbn [length Nat.ltb Nat.leb]. split; reflexivity. }
    assert (Hne' : batch' <> []) by (intros ->; discriminate Hlen).
    pose proof (percent_mean_error (det :: rest) ltac:(discriminate) Hn Hall)
      as H1.
    pose proof (percent_mean_error batch' Hne' ltac:(by rewrite <- Hlen) Hall')
      as H2.
    assert (Hm : (arithmeticMean (map confidence (det :: rest))
                  == arithmeticMean (map confidence batch'))%Q).
    { unfold arithmeticMean.
      rewrite (Qsum_Permutation _ _ (fmap_Permutation confidence _ _ Hp)).
      unfold Qlength. rewrite !length_map, Hlen. reflexivity. }
    rewrite Hm in H1.
    apply Qabs_bound in H1, H2.
    cbn [length Nat.ltb Nat.leb].
    split; (apply Qle_lt_trans with (146 # 100000000000)%Q;
            [apply Qabs_bound; lra|reflexivity]).
Qed.

(** The order of the batch, at a concrete input: the confidences 0.1, 0.2
    and 0.3, and the same detections in reverse. *)
Lemma aggregator_ignores_batch_order_witness :
  VideoDetectionPage.violations
    (VideoDetectionPage.updateStats threeGloves)
  = VideoDetectionPage.violations
      (VideoDetectionPage.updateStats (reverse threeGloves))
  /\ (Qabs (VideoDetectionPage.avgConfidence
              (VideoDetectionPage.updateStats threeGloves)
            - VideoDetectionPage.avgConfidence
                (VideoDetectionPage.updateStats (reverse threeGloves)))
      < 1.5e-9)%Q.
Proof.
  destruct (aggregator_ignores_batch_order threeGloves (reverse threeGloves))
    as ((_ & _ & H3) & _ & H).
  - symmetry. apply reverse_Permutation.
  - split; [exact H3|]. apply H.
    + simpl. lia.
    + repeat constructor; vm_compute; discriminate.
Defined.

Lemma someClass_app (name : string) (batch batch' : list Detection) :
  someClass name (batch ++ batch')
  = someClass name batch || someClass name batch'.
Proof. unfold someClass. apply existsb_app. Qed.

(** Further detections never turn a safe frame into a violation: when a
    batch is counted safe, every batch that contains it with more
    detections before and after is counted safe too, with no violation. *)
Theorem safe_batch_stays_safe_when_extended
  (before batch after : list Detection) :
  VideoDetectionPage.safeWorkers (VideoDetectionPage.updateStats batch) = 1 ->
  VideoDetectionPage.safeWorkers
    (VideoDetectionPage.updateStats (before ++ batch ++ after)) = 1
  /\ VideoDetectionPage.violations
       (VideoDetectionPage.updateStats (before ++ batch ++ after)) = 0
  /\ LiveWebcamPage.safeWorkers
       (LiveWebcamPage.updateDetectionStats (before ++ batch ++ after)) = 1
  /\ LiveWebcamPage.violations
       (LiveWebcamPage.updateDetectionStats (before ++ batch ++ after)) = 0.
Proof.
  unfold VideoDetectionPage.updateStats, LiveWebcamPage.updateDetectionStats.
  cbn [VideoDetectionPage.safeWorkers VideoDetectionPage.violations
       LiveWebcamPage.safeWorkers LiveWebcamPage.violations].
  rewrite !someClass_app.
  destruct (someClass "Protective Helmet" batch),
           (someClass "Safety Jacket" batch); try discriminate.
  intros _. rewrite !orb_true_r. cbn [orb andb truthy Nat.eqb negb].
  rewrite !andb_false_r. repeat split.
Qed.

(** A safe batch stays safe, at a concrete input: the sample batch with a
    pair of gloves added. *)
Lemma safe_batch_stays_safe_witness :
  VideoDetectionPage.safeWorkers
    (VideoDetectionPage.updateStats
       ([] ++ helmetAndJacket ++
        [ {| bbox := (0, 0, 50, 50)%Q; class := "Protective Gloves";
             confidence := 0.6 |} ])) = 1.
Proof.
  exact (proj1 (safe_batch_stays_safe_when_extended [] helmetAndJacket
                  [ {| bbox := (0, 0, 50, 50)%Q; class := "Protective Gloves";
                       confidence := 0.6 |} ] eq_refl)).
Defined.

(** ** The legend of the webcam page *)

(** The legend of the webcam page lists the classes of the detector, in
    the detector's order, and flags an entry as detected exactly when the
    current detections hold one of its class. *)
Theorem legend_flags_the_classes_present (detections : list Detection) :
  map LiveWebcamLegend.name (LiveWebcamLegend.detectionClasses detections)
  = YOLODetector.getClassNames
  /\ Forall (fun item =>
               LiveWebcamLegend.detected item
               = bool_decide (hasClass (LiveWebcamLegend.name item) detections))
       (LiveWebcamLegend.detectionClasses detections).
Proof.
  split; [reflexivity|].
  unfold LiveWebcamLegend.detectionClasses.
  repeat (apply Forall_cons; split; [apply someClass_decide|]).
  apply Forall_nil_2.
Qed.

(** ** The overlay renderer, further *)

Section RendererMoreFacts.

Variable toFixed1 : Q -> string.
Variable measureText : string -> string -> Q.

Local Abbreviation drawDetection :=
  (VideoProcessor.drawDetection toFixed1 measureText).
Local Abbreviation drawDetections :=
  (VideoProcessor.drawDetections toFixed1 measureText).

(** What one run of the loop body paints does not depend on the context
    it paints on, and is three shapes. *)
Lemma drawDetection_appends cw ch det index ctx :
  painted (drawDetection cw ch det index ctx)
  = painted ctx ++ painted (drawDetection cw ch det index freshContext)
  /\ length (painted (drawDetection cw ch det index freshContext)) = 3.
Proof.
  unfold VideoProcessor.drawDetection.
  destruct (bbox det) as [[[x y] width] height]. split; reflexivity.
Qed.

Lemma forEach_drawDetection_appends cw ch dets : forall index ctx,
  exists new,
    painted (forEach (drawDetection cw ch) dets index ctx)
    = painted ctx ++ new
    /\ length new = 3 * length dets.
Proof.
  induction dets as [|d rest IH]; intros index ctx; cbn [forEach].
  - exists []. by rewrite app_nil_r.
  - destruct (IH (S index) (drawDetection cw ch d index ctx)) as (new & Hn & Hl).
    destruct (drawDetection_appends cw ch d index ctx) as [Hp H3].
    exists (painted (drawDetection cw ch d index freshContext) ++ new).
    rewrite Hn, Hp, <- app_assoc. split; [done|].
    rewrite length_app, H3, Hl. simpl. lia.
Qed.

(** The renderer only adds to the canvas: what was painted stays, and each
    detection adds three shapes (box, label background, label text), so an
    empty batch paints nothing. *)
Theorem drawDetections_paints_three_shapes_per_detection
  (ctx : CanvasRenderingContext2D) (detections : list Detection)
  (canvasWidth canvasHeight : Q) :
  exists new,
    painted (drawDetections ctx detections canvasWidth canvasHeight)
    = painted ctx ++ new
    /\ length new = 3 * length detections.
Proof. apply forEach_drawDetection_appends. Qed.




End RendererMoreFacts.



(** ** The detector, further *)

(** The loop of the mock generator always ends with a batch, whatever
    [Math.random()] returns: it adds one detection per turn, reads six
    random values per turn and has no other effect. *)
Lemma pushDetections_total (n : nat) : forall (detections : list Detection) (w : World),
  exists (new : list Detection) (w' : World),
    YOLODetector.pushDetections n detections w = (Ok (detections ++ new), w')
    /\ length new = n
    /\ drawn w' = drawn w + 6 * n
    /\ effects w' = effects w
    /\ model w' = model w.
Proof.
  induction n as [|n IH]; intros detections w.
  - exists [], w. rewrite app_nil_r. repeat split; simpl; lia.
  - cbn [YOLODetector.pushDetections].
    unfold mbind, Js_bind, Math_random. cbn [drawn entropy set_drawn].
    set (acc := (detections ++ _)%list).
    set (w6 := set_drawn _ _).
    destruct (IH acc w6) as (new & w' & Hrun & Hlen & Hd & He & Hm).
    subst acc. rewrite <- app_assoc in Hrun.
    eexists (_ :: new), w'. split; [exact Hrun|].
    split; [simpl; by rewrite Hlen|].
    split; [rewrite Hd; subst w6; simpl; lia|].
    split; [rewrite He; reflexivity|rewrite Hm; reflexivity].
Qed.

Lemma detect_with_model (fromPixels : JsResult unit) (w : World) (m : GraphModel) :
  model w = Some m ->
  exists (detections : list Detection) (w' : World),
    YOLODetector.detect fromPixels w = (Ok detections, w')
    /\ model w' = Some m
    /\ match fromPixels with
       | Ok _ =>
           length detections
           = Z.to_nat (Qfloor (entropy w (drawn w) * 4) + 1)
           /\ drawn w' = drawn w + 1 + 6 * length detections
           /\ effects w' = effects w
       | Throw error =>
           detections = [] /\ drawn w' = drawn w
           /\ effects w' = effects w ++ [ConsoleError "Detection error:" error]
       end.
Proof.
  intros Hm. unfold YOLODetector.detect. rewrite Hm.
  unfold try_catch, YOLODetector.generateMockDetections.
  unfold mbind, Js_bind, settled, Math_random.
  destruct fromPixels as [[]|error].
  - set (w1 := set_drawn _ _).
    destruct (pushDetections_total
                (Z.to_nat (Qfloor (entropy w (drawn w) * 4) + 1)) [] w1)
      as (new & w' & Hrun & Hlen & Hd & He & Hm').
    rewrite Hrun. cbn [app]. exists new, w'.
    split; [reflexivity|]. split; [by rewrite Hm'|].
    split; [exact Hlen|]. split; [|by rewrite He].
    rewrite Hd, Hlen. subst w1. simpl. lia.
  - eexists _, _. split; [reflexivity|]. by repeat split.
Qed.

(** [detect] throws exactly when no model is loaded: with a model it
    returns a batch whatever the tensor conversion does and whatever
    [Math.random()] returns; without one it throws "Model not loaded" and
    leaves the world as it was. *)
Theorem detect_throws_only_without_model
  (fromPixels : JsResult unit) (w : World) :
  match model w with
  | Some _ =>
      exists (detections : list Detection) (w' : World),
        YOLODetector.detect fromPixels w = (Ok detections, w')
  | None =>
      YOLODetector.detect fromPixels w = (Throw "Model not loaded", w)
  end.
Proof.
  destruct (model w) as [m|] eqn:Hm.
  - destruct (detect_with_model fromPixels w m Hm) as (d & w' & H & _).
    by exists d, w'.
  - unfold YOLODetector.detect. by rewrite Hm.
Qed.

(** A [detect] call whose tensor conversion succeeds reads one random
    value for the size of the batch and six per detection, and adds no
    effect; the size of the batch is the floor of four times the first
    value, plus one (also outside the contract of [Math.random()]: none
    for a value below 0, more than four for a value of 1 or more). *)
Theorem detect_reads_six_randoms_per_detection (w : World) :
  YOLODetector.isLoaded w = true ->
  length (batchOf (YOLODetector.detect (Ok tt) w).1)
  = Z.to_nat (Qfloor (entropy w (drawn w) * 4) + 1)
  /\ drawn (YOLODetector.detect (Ok tt) w).2
     = drawn w + 1 + 6 * length (batchOf (YOLODetector.detect (Ok tt) w).1)
  /\ effects (YOLODetector.detect (Ok tt) w).2 = effects w.
Proof.
  unfold YOLODetector.isLoaded. destruct (model w) as [m|] eqn:Hm; [|done].
  intros _.
  destruct (detect_with_model (Ok tt) w m Hm) as (d & w' & H & _ & Hl & Hd & He).
  rewrite H. by cbn [fst snd batchOf].
Qed.

(** The random values read, at a concrete input: the idle page, where
    [Math.random()] is stuck at 0.5 and the batch has three detections. *)
Lemma detect_reads_six_randoms_witness :
  length (batchOf (YOLODetector.detect (Ok tt) (idleWorld (Some DummyModel))).1)
  = Z.to_nat (Qfloor (0.5 * 4) + 1)
  /\ drawn (YOLODetector.detect (Ok tt) (idleWorld (Some DummyModel))).2
     = 0 + 1
       + 6 * length
               (batchOf
                  (YOLODetector.detect (Ok tt) (idleWorld (Some DummyModel))).1)
  /\ effects (YOLODetector.detect (Ok tt) (idleWorld (Some DummyModel))).2 = [].
Proof.
  exact (detect_reads_six_randoms_per_detection
           (idleWorld (Some DummyModel)) eq_refl).
Defined.

(** [detect] reads and writes the detector only: the model, the video,
    the canvas size, [animationId], the callbacks registered with the
    browser and the suspended activations are what they were. *)
Theorem detect_keeps_model_and_pipeline_state
  (fromPixels : JsResult unit) (w : World) :
  sameLoopState w (YOLODetector.detect fromPixels w).2.
Proof. apply detect_frame. Qed.

(** What [loadModel] returns tells whether [detect] works afterwards,
    except after a failed reload: when the construction succeeds,
    [loadModel] returns [true] and [detect] returns a batch; when it throws
    on a detector that has no model, [loadModel] returns [false] and
    [detect] throws; when it throws on a detector that has a model,
    [loadModel] returns [false] but the model stays and [detect] still
    returns a batch. *)
Theorem detect_after_loadModel
  (tfSequential : JsResult GraphModel) (modelPath : string)
  (fromPixels : JsResult unit) (w : World) :
  match tfSequential, model w with
  | Ok _, _ =>
      (YOLODetector.loadModel tfSequential modelPath w).1 = Ok true
      /\ exists detections w',
           YOLODetector.detect fromPixels
             (YOLODetector.loadModel tfSequential modelPath w).2
           = (Ok detections, w')
  | Throw _, Some _ =>
      (YOLODetector.loadModel tfSequential modelPath w).1 = Ok false
      /\ YOLODetector.isLoaded
           (YOLODetector.loadModel tfSequential modelPath w).2 = true
      /\ exists detections w',
           YOLODetector.detect fromPixels
             (YOLODetector.loadModel tfSequential modelPath w).2
           = (Ok detections, w')
  | Throw _, None =>
      (YOLODetector.loadModel tfSequential modelPath w).1 = Ok false
      /\ YOLODetector.detect fromPixels
           (YOLODetector.loadModel tfSequential modelPath w).2
         = (Throw "Model not loaded",
            (YOLODetector.loadModel tfSequential modelPath w).2)
  end.
Proof.
  destruct tfSequential as [m|e].
  - split; [reflexivity|].
    destruct (detect_with_model fromPixels
                (YOLODetector.loadModel (Ok m) modelPath w).2 m eq_refl)
      as (d & w' & H & _).
    by exists d, w'.
  - destruct (model w) as [m|] eqn:Hm.
    + assert (Hm' : model (YOLODetector.loadModel (Throw e) modelPath w).2
                    = Some m) by exact Hm.
      split; [reflexivity|]. split.
      * unfold YOLODetector.isLoaded. by rewrite Hm'.
      * destruct (detect_with_model fromPixels _ m Hm') as (d & w' & H & _).
        by exists d, w'.
    + split; [reflexivity|].
      assert (Hm' : model (YOLODetector.loadModel (Throw e) modelPath w).2
                    = None) by exact Hm.
      unfold YOLODetector.detect at 1. by rewrite Hm'.
Qed.

(** ** The frame pipeline, further *)

Section PipelineMoreFacts.

Import VideoProcessor.

Lemma callbacksFollowRender_weaken (prev : option Effect) (es : list Effect) :
  callbacksFollowRender None es -> callbacksFollowRender prev es.
Proof.
  destruct es as [|e rest]; [done|]. intros [He Hrest]. split; [|done].
  destruct e; try done. destruct He as (? & ? & ?). discriminate.
Qed.

Lemma callbacksFollowRender_app (es new : list Effect) : forall prev,
  callbacksFollowRender prev es ->
  callbacksFollowRender None new ->
  callbacksFollowRender prev (es ++ new).
Proof.
  induction es as [|e rest IH]; intros prev Hes Hnew; cbn [app].
  - by apply callbacksFollowRender_weaken.
  - destruct Hes as [He Hrest]. split; [done|]. by apply IH.
Qed.

Lemma countCallbacks_app (es new : list Effect) :
  countCallbacks (es ++ new) = countCallbacks es + countCallbacks new.
Proof. unfold countCallbacks. by rewrite List.filter_app, length_app. Qed.

(** What the first half of [processFrame] adds to the effects: nothing on
    a paused or ended video, else the drawing of the frame and, when the
    tensor conversion throws, the error logged by [detect]. *)
Lemma processFrame_begin_effects fromPixels w :
  exists new,
    effects (processFrame_begin fromPixels w) = effects w ++ new
    /\ Forall (fun e => isRenderOrAggregate e = false) new
    /\ hasOnDetection (processFrame_begin fromPixels w) = hasOnDetection w
    /\ videoElement (processFrame_begin fromPixels w) = videoElement w.
Proof.
  unfold processFrame_begin.
  destruct (paused (videoElement w) || ended (videoElement w)).
  { exists []. by rewrite app_nil_r. }
  set (w1 := snd (emit _ _)).
  assert (He1 : effects w1
                = effects w
                  ++ [DrawImage (orElse (videoWidth (videoElement w)) 640)
                        (orElse (videoHeight (videoElement w)) 480)])
    by reflexivity.
  pose proof (detect_frame fromPixels w1) as (_&_&Hv&_&_&Hc&_).
  destruct (model w1) as [m|] eqn:Hm.
  - destruct (detect_with_model fromPixels w1 m Hm) as (d & w2 & Hd & _ & Hcase).
    rewrite Hd in *. cbn [snd] in Hv, Hc. cbn [effects set_suspended hasOnDetection videoElement].
    rewrite Hc, Hv. destruct fromPixels as [[]|error].
    + destruct Hcase as (_ & _ & He). rewrite He, He1.
      eexists. split; [reflexivity|]. split; [|done]. by repeat constructor.
    + destruct Hcase as (_ & _ & He). rewrite He, He1, <- app_assoc.
      eexists. split; [reflexivity|]. split; [|done]. by repeat constructor.
  - unfold YOLODetector.detect in *. rewrite Hm in *.
    unfold throw in *. cbn [snd] in Hv, Hc.
    cbn [effects set_suspended hasOnDetection videoElement].
    rewrite He1. eexists. split; [reflexivity|]. split; [|done].
    by repeat constructor.
Qed.

(** What the second half of [processFrame] adds to the effects. *)
Lemma processFrame_resume_effects promise w :
  effects (processFrame_resume promise w)
  = effects w
    ++ match promise with
       | Ok detections =>
           CallDrawDetections detections (canvasWidth w) (canvasHeight w)
           :: (if hasOnDetection w then [CallOnDetection detections] else [])
       | Throw error => [ConsoleError "Detection error:" error]
       end
  /\ hasOnDetection (processFrame_resume promise w) = hasOnDetection w
  /\ videoElement (processFrame_resume promise w) = videoElement w
  /\ canvasWidth (processFrame_resume promise w) = canvasWidth w
  /\ canvasHeight (processFrame_resume promise w) = canvasHeight w.
Proof.
  unfold processFrame_resume, try_catch, mbind, Js_bind, settled.
  destruct promise as [detections|e]; [destruct (hasOnDetection w) eqn:Hc|];
    cbn; rewrite ?Hc, <- ?app_assoc; repeat split.
Qed.

Lemma no_render_follows (new : list Effect) :
  Forall (fun e => isRenderOrAggregate e = false) new ->
  callbacksFollowRender None new /\ countCallbacks new = 0.
Proof.
  induction 1 as [|e rest He _ [IH1 IH2]]; [done|]. split.
  - split; [by destruct e|]. by apply callbacksFollowRender_weaken.
  - unfold countCallbacks in *. cbn [List.filter].
    destruct e; try done.
Qed.

(** One event adds effects in which every call of the callback follows a
    call of the renderer with the same batch, and none without a callback. *)
Lemma step_effects w e :
  exists new,
    effects (step w e) = effects w ++ new
    /\ callbacksFollowRender None new
    /\ hasOnDetection (step w e) = hasOnDetection w
    /\ countCallbacks new <= 1
    /\ (if hasOnDetection w then True else countCallbacks new = 0).
Proof.
  destruct e as [fp|id fp| | |v]; cbn [step].
  - destruct (processFrame_begin_effects fp w) as (new & He & Hn & Hc & _).
    destruct (no_render_follows new Hn) as [H1 H2].
    exists new. rewrite H2. repeat split; try done; [lia|by destruct (hasOnDetection w)].
  - case_bool_decide.
    + destruct (processFrame_begin_effects fp
                  (set_raf (filter (fun id' => id' ≠ id) (rafCallbacks w))
                     (rafHandle w) w)) as (new & He & Hn & Hc & _).
      destruct (no_render_follows new Hn) as [H1 H2].
      exists new. rewrite H2.
      repeat split; try done; [lia|by destruct (hasOnDetection w)].
    + exists []. rewrite app_nil_r.
      repeat split; try done; [unfold countCallbacks; simpl; lia
                              |by destruct (hasOnDetection w)].
  - destruct (suspended w) as [|promise rest].
    + exists []. rewrite app_nil_r.
      repeat split; try done; [unfold countCallbacks; simpl; lia
                              |by destruct (hasOnDetection w)].
    + destruct (processFrame_resume_effects promise (set_suspended rest w))
        as (He & Hc & _).
      eexists. split; [exact He|]. cbn [hasOnDetection set_suspended] in *.
      split; [|split; [exact Hc|]].
      * destruct promise as [d|err]; [|by repeat split].
        destruct (hasOnDetection w); cbn; repeat split; eauto.
      * destruct promise as [d|err]; destruct (hasOnDetection w);
          unfold countCallbacks; cbn; split; try done; lia.
  - exists []. rewrite app_nil_r. unfold stopProcessing.
    destruct (animationId w) as [id|]; [destruct (id =? 0)%Z|];
      repeat split; try done;
      try (unfold countCallbacks; simpl; lia);
      by destruct (hasOnDetection w).
  - exists []. rewrite app_nil_r.
    repeat split; try done; [unfold countCallbacks; simpl; lia
                            |by destruct (hasOnDetection w)].
Qed.

Lemma run_effects events : forall w,
  exists new,
    effects (run w events) = effects w ++ new
    /\ callbacksFollowRender None new
    /\ hasOnDetection (run w events) = hasOnDetection w
    /\ (if hasOnDetection w then True else countCallbacks new = 0).
Proof.
  induction events as [|e events IH]; intros w.
  - exists []. rewrite app_nil_r. repeat split; try done.
    by destruct (hasOnDetection w).
  - unfold run. cbn [foldl]. fold (run (step w e) events).
    destruct (step_effects w e) as (new1 & He1 & Hf1 & Hc1 & _ & Hn1).
    destruct (IH (step w e)) as (new2 & He2 & Hf2 & Hc2 & Hn2).
    exists (new1 ++ new2). rewrite He2, He1, <- app_assoc.
    split; [done|]. split; [by apply callbacksFollowRender_app|].
    split; [congruence|].
    rewrite Hc1 in Hn2. destruct (hasOnDetection w); [done|].
    rewrite countCallbacks_app. lia.
Qed.

(** Whatever happens, the pipeline only adds effects, and every call of
    the [onDetection] callback comes right after a call of the renderer
    with the same batch: nothing is reported that was not drawn. *)
Theorem callbacks_always_follow_render (w : World) (events : list Event) :
  exists new,
    effects (run w events) = effects w ++ new
    /\ callbacksFollowRender None new.
Proof.
  destruct (run_effects events w) as (new & He & Hf & _). by exists new.
Qed.

(** When no [onDetection] callback was given to [processVideo], none is
    ever called, whatever happens. *)
Theorem no_callback_given_none_called (w : World) (events : list Event) :
  hasOnDetection w = false ->
  countCallbacks (effects (run w events)) = countCallbacks (effects w).
Proof.
  intros Hc. destruct (run_effects events w) as (new & He & _ & _ & Hn).
  rewrite Hc in Hn. rewrite He, countCallbacks_app. lia.
Qed.

(** No callback given, at a concrete input: two full ticks of the page of
    a caller that gave no callback. *)
Lemma no_callback_given_witness :
  countCallbacks
    (effects (run silentWorld
                [ CallProcessVideo (Ok tt); PromiseSettled;
                  AnimationFrame 1 (Ok tt); PromiseSettled ]))
  = countCallbacks (effects silentWorld).
Proof.
  exact (no_callback_given_none_called silentWorld
           [ CallProcessVideo (Ok tt); PromiseSettled;
             AnimationFrame 1 (Ok tt); PromiseSettled ] eq_refl).
Defined.

Lemma detect_success_shape (w : World) (m : GraphModel) :
  model w = Some m ->
  randomInUnit w ->
  randomIsDouble w ->
  exists (detections : list Detection) (w' : World),
    YOLODetector.detect (Ok tt) w = (Ok detections, w')
    /\ 1 <= length detections <= 4
    /\ Forall mockRanged detections
    /\ effects w' = effects w.
Proof.
  intros Hm Hr Hdbl.
  destruct (detect_with_model (Ok tt) w m Hm)
    as (d & w' & Hd & _ & Hlen & _ & He).
  exists d, w'. split; [exact Hd|].
  destruct (Hr (drawn w)) as [H0 H1].
  pose proof (Qfloor_scaled_range (entropy w (drawn w)) 4 eq_refl H0 H1) as Hn.
  change (inject_Z 4) with 4%Q in Hn.
  split; [|split; [|exact He]].
  - remember (Qfloor (entropy w (drawn w) * 4)) as k eqn:Hk. clear Hk. lia.
  - revert Hd. unfold YOLODetector.detect. rewrite Hm.
    unfold try_catch, YOLODetector.generateMockDetections.
    unfold mbind, Js_bind, settled, Math_random.
    set (w1 := set_drawn _ _).
    destruct (pushDetections_shape
                (Z.to_nat (Qfloor (entropy w (drawn w) * 4) + 1)) [] w1)
      as (new & w2 & Hrun & _ & Hall).
    { intros k. apply Hr. }
    { intros k. apply Hdbl. }
    rewrite Hrun. cbn [app]. intros [= <- _]. exact Hall.
Qed.

(** A full tick on a playing video with the model loaded. *)
Lemma successful_tick (w : World) :
  paused (videoElement w) || ended (videoElement w) = false ->
  suspended w = [] ->
  YOLODetector.isLoaded w = true ->
  randomInUnit w ->
  randomIsDouble w ->
  exists detections,
    1 <= length detections <= 4
    /\ Forall mockRanged detections
    /\ effects (run w [ CallProcessVideo (Ok tt); PromiseSettled ])
       = effects w
         ++ [ DrawImage (orElse (videoWidth (videoElement w)) 640)
                (orElse (videoHeight (videoElement w)) 480);
              CallDrawDetections detections
                (orElse (videoWidth (videoElement w)) 640)
                (orElse (videoHeight (videoElement w)) 480) ]
         ++ (if hasOnDetection w then [ CallOnDetection detections ] else [])
    /\ canvasWidth (run w [ CallProcessVideo (Ok tt); PromiseSettled ])
       = orElse (videoWidth (videoElement w)) 640
    /\ canvasHeight (run w [ CallProcessVideo (Ok tt); PromiseSettled ])
       = orElse (videoHeight (videoElement w)) 480
    /\ rafCallbacks (run w [ CallProcessVideo (Ok tt); PromiseSettled ])
       = rafCallbacks w ++ [ (rafHandle w + 1)%Z ]
    /\ animationId (run w [ CallProcessVideo (Ok tt); PromiseSettled ])
       = Some (rafHandle w + 1)%Z
    /\ suspended (run w [ CallProcessVideo (Ok tt); PromiseSettled ]) = [].
Proof.
  intros Hp Hs Hl Hr Hdbl. unfold YOLODetector.isLoaded in Hl.
  destruct (model w) as [m|] eqn:Hm; [clear Hl|done].
  unfold run. cbn [foldl step]. unfold processFrame_begin. rewrite Hp.
  set (w1 := snd (emit _ _)).
  assert (Hm1 : model w1 = Some m) by exact Hm.
  assert (Hr1 : randomInUnit w1) by (intros k; apply Hr).
  assert (Hdbl1 : randomIsDouble w1) by (intros k; apply Hdbl).
  destruct (detect_success_shape w1 m Hm1 Hr1 Hdbl1)
    as (d & w2 & Hd & Hlen & Hall & He).
  pose proof (detect_frame (Ok tt) w1) as Hf. rewrite Hd in Hf.
  destruct Hf as (_&_&_&Hcw&Hch&Hcb&Ha&Hraf&Hh&Hsu). cbn [snd] in *.
  rewrite Hd. cbn [suspended set_suspended]. rewrite Hsu.
  change (suspended w1) with (suspended w). rewrite Hs. cbn [app].
  destruct (processFrame_resume_effects (Ok d)
              (set_suspended [] (set_suspended [Ok d] w2)))
    as (He2 & _ & _ & Hcw2 & Hch2).
  destruct (processFrame_resume_loop (Ok d)
              (set_suspended [] (set_suspended [Ok d] w2)))
    as (Hr2 & _ & Ha2 & Hs2).
  exists d. split; [exact Hlen|]. split; [exact Hall|].
  rewrite He2, Hcw2, Hch2, Hr2, Ha2, Hs2.
  cbn [effects canvasWidth canvasHeight hasOnDetection rafCallbacks rafHandle
       suspended set_suspended].
  rewrite He, Hcw, Hch, Hcb, Hraf, Hh.
  change (effects w1)
    with (effects w ++ [DrawImage (orElse (videoWidth (videoElement w)) 640)
                          (orElse (videoHeight (videoElement w)) 480)]).
  change (canvasWidth w1) with (orElse (videoWidth (videoElement w)) 640).
  change (canvasHeight w1) with (orElse (videoHeight (videoElement w)) 480).
  change (hasOnDetection w1) with (hasOnDetection w).
  change (rafCallbacks w1) with (rafCallbacks w).
  change (rafHandle w1) with (rafHandle w).
  rewrite <- app_assoc. cbn [app]. by repeat split.
Qed.

(** A full tick on a playing video with the model loaded and a
    [Math.random()] that returns doubles of [[0, 1)]: the canvas takes the
    size of the video (640 by 480 where the video reports 0), the frame is
    drawn, the renderer is called with the canvas size and a batch of 1 to
    4 detections in the ranges of the mock generator (confidence in
    [[0.5, 1]], width and height in [[50, 150]], bounds included), then
    the callback with the same batch when one was given; the next tick is
    registered under the next handle, which [animationId] records. *)
Theorem successful_tick_draws_renders_reports (w : World) :
  paused (videoElement w) || ended (videoElement w) = false ->
  suspended w = [] ->
  YOLODetector.isLoaded w = true ->
  randomInUnit w ->
  randomIsDouble w ->
  exists detections,
    1 <= length detections <= 4
    /\ Forall mockRanged detections
    /\ effects (run w [ CallProcessVideo (Ok tt); PromiseSettled ])
       = effects w
         ++ [ DrawImage (orElse (videoWidth (videoElement w)) 640)
                (orElse (videoHeight (videoElement w)) 480);
              CallDrawDetections detections
                (orElse (videoWidth (videoElement w)) 640)
                (orElse (videoHeight (videoElement w)) 480) ]
         ++ (if hasOnDetection w then [ CallOnDetection detections ] else [])
    /\ canvasWidth (run w [ CallProcessVideo (Ok tt); PromiseSettled ])
       = orElse (videoWidth (videoElement w)) 640
    /\ canvasHeight (run w [ CallProcessVideo (Ok tt); PromiseSettled ])
       = orElse (videoHeight (videoElement w)) 480
    /\ rafCallbacks (run w [ CallProcessVideo (Ok tt); PromiseSettled ])
       = rafCallbacks w ++ [ (rafHandle w + 1)%Z ]
    /\ animationId (run w [ CallProcessVideo (Ok tt); PromiseSettled ])
       = Some (rafHandle w + 1)%Z
    /\ suspended (run w [ CallProcessVideo (Ok tt); PromiseSettled ]) = [].
Proof. apply successful_tick. Qed.

(** A full tick, at a concrete input: the idle page with the model loaded. *)
Lemma successful_tick_witness :
  exists detections,
    1 <= length detections <= 4
    /\ Forall mockRanged detections
    /\ effects (run (idleWorld (Some DummyModel))
                  [ CallProcessVideo (Ok tt); PromiseSettled ])
       = [] ++ [ DrawImage 1280 720; CallDrawDetections detections 1280 720 ]
            ++ [ CallOnDetection detections ]
    /\ rafCallbacks (run (idleWorld (Some DummyModel))
                       [ CallProcessVideo (Ok tt); PromiseSettled ])
       = [] ++ [ 1%Z ].
Proof.
  destruct (successful_tick_draws_renders_reports (idleWorld (Some DummyModel))
              eq_refl eq_refl eq_refl)
    as (d & H1 & H2 & H3 & _ & _ & H6 & _).
  - intros n. simpl. lra.
  - intros n. vm_compute. reflexivity.
  - exists d. exact (conj H1 (conj H2 (conj H3 H6))).
Defined.

Lemma videoPageAfter_app es new page :
  videoPageAfter (es ++ new) page = videoPageAfter new (videoPageAfter es page).
Proof. unfold videoPageAfter. apply foldl_app. Qed.

Lemma webcamPageAfter_app es new page :
  webcamPageAfter (es ++ new) page
  = webcamPageAfter new (webcamPageAfter es page).
Proof. unfold webcamPageAfter. apply foldl_app. Qed.

(** From the detector through the pipeline to the pages: after a full
    tick on a playing video with the model loaded, a [Math.random()] that
    returns doubles of [[0, 1)] and a callback given, both pages hold the
    batch of the tick and its stats: between 1 and 4 detections, counted
    once as safe or as a violation, with an average confidence between 50
    and 100, bounds included. *)
Theorem pages_after_successful_tick
  (w : World) (videoPage : VideoDetectionPage.Page)
  (webcamPage : LiveWebcamPage.Page) :
  paused (videoElement w) || ended (videoElement w) = false ->
  suspended w = [] ->
  YOLODetector.isLoaded w = true ->
  randomInUnit w ->
  randomIsDouble w ->
  hasOnDetection w = true ->
  exists detections,
    Forall mockRanged detections
    /\ VideoDetectionPage.detections
         (videoPageAfter
            (effects (run w [ CallProcessVideo (Ok tt); PromiseSettled ]))
            videoPage) = detections
    /\ VideoDetectionPage.stats
         (videoPageAfter
            (effects (run w [ CallProcessVideo (Ok tt); PromiseSettled ]))
            videoPage) = VideoDetectionPage.updateStats detections
    /\ LiveWebcamPage.detections
         (webcamPageAfter
            (effects (run w [ CallProcessVideo (Ok tt); PromiseSettled ]))
            webcamPage) = detections
    /\ LiveWebcamPage.detectionStats
         (webcamPageAfter
            (effects (run w [ CallProcessVideo (Ok tt); PromiseSettled ]))
            webcamPage) = LiveWebcamPage.updateDetectionStats detections
    /\ (1 <= VideoDetectionPage.totalDetections
               (VideoDetectionPage.updateStats detections) <= 4
        /\ VideoDetectionPage.safeWorkers
             (VideoDetectionPage.updateStats detections)
           + VideoDetectionPage.violations
               (VideoDetectionPage.updateStats detections) = 1
        /\ (50 <= VideoDetectionPage.avgConfidence
                    (VideoDetectionPage.updateStats detections)
            /\ VideoDetectionPage.avgConfidence
                 (VideoDetectionPage.updateStats detections) <= 100)%Q)
    /\ (1 <= LiveWebcamPage.totalDetections
               (LiveWebcamPage.updateDetectionStats detections) <= 4
        /\ LiveWebcamPage.safeWorkers
             (LiveWebcamPage.updateDetectionStats detections)
           + LiveWebcamPage.violations
               (LiveWebcamPage.updateDetectionStats detections) = 1
        /\ (50 <= LiveWebcamPage.confidence
                    (LiveWebcamPage.updateDetectionStats detections)
            /\ LiveWebcamPage.confidence
                 (LiveWebcamPage.updateDetectionStats detections) <= 100)%Q).
Proof.
  intros Hp Hs Hl Hr Hdbl Hc.
  destruct (successful_tick w Hp Hs Hl Hr Hdbl) as (d & Hlen & Hall & He & _).
  rewrite Hc in He. exists d. split; [exact Hall|].
  rewrite He, !videoPageAfter_app, !webcamPageAfter_app.
  do 4 (split; [reflexivity|]).
  assert (Hne : d <> []) by (intros ->; simpl in Hlen; lia).
  assert (Hb : Forall (fun det => (1 # 2) <= confidence det
                                  /\ confidence det <= 1)%Q d).
  { eapply Forall_impl; [exact Hall|].
    intros det ((H1 & H2) & _). split; lra. }
  assert (Hlen53 : (Z.of_nat (length d) < 2 ^ 53)%Z).
  { change (2 ^ 53)%Z with 9007199254740992%Z. lia. }
  pose proof (percent_bounds_half d Hne Hlen53 Hb) as HB.
  unfold VideoDetectionPage.updateStats, LiveWebcamPage.updateDetectionStats.
  cbn [VideoDetectionPage.totalDetections VideoDetectionPage.safeWorkers
       VideoDetectionPage.violations VideoDetectionPage.avgConfidence
       LiveWebcamPage.totalDetections LiveWebcamPage.safeWorkers
       LiveWebcamPage.violations LiveWebcamPage.confidence].
  destruct d as [|det rest]; [done|].
  cbn [length Nat.ltb Nat.leb] in *.
  destruct (someClass "Protective Helmet" (det :: rest)),
           (someClass "Safety Jacket" (det :: rest));
    (split; (split; [exact Hlen|]); (split; [reflexivity|exact HB])).
Qed.

(** The pages after a full tick, at a concrete input. *)
Lemma pages_after_successful_tick_witness :
  exists detections,
    VideoDetectionPage.stats
      (videoPageAfter
         (effects (run (idleWorld (Some DummyModel))
                     [ CallProcessVideo (Ok tt); PromiseSettled ]))
         pageWithStats) = VideoDetectionPage.updateStats detections
    /\ 1 <= VideoDetectionPage.totalDetections
              (VideoDetectionPage.updateStats detections) <= 4
    /\ (50 <= LiveWebcamPage.confidence
                (LiveWebcamPage.updateDetectionStats detections)
        /\ LiveWebcamPage.confidence
             (LiveWebcamPage.updateDetectionStats detections) <= 100)%Q.
Proof.
  destruct (pages_after_successful_tick (idleWorld (Some DummyModel))
              pageWithStats
              {| LiveWebcamPage.detections := [];
                 LiveWebcamPage.detectionStats := LiveWebcamPage.initialStats |}
              eq_refl eq_refl eq_refl)
    as (d & _ & _ & H3 & _ & _ & (H6 & _) & (_ & _ & H9)).
  - intros n. simpl. lra.
  - intros n. vm_compute. reflexivity.
  - reflexivity.
  - exists d. exact (conj H3 (conj H6 H9)).
Defined.

(** One detection in flight at a time: on a page that runs one loop, at
    most one tick is pending, either registered with the browser or
    suspended on its detection, and a registered tick is the one whose
    handle [animationId] holds. *)
Theorem single_loop_has_one_pending_tick (w : World) :
  singleLoop w ->
  length (rafCallbacks w) + length (suspended w) <= 1
  /\ Forall (fun id => animationId w = Some id) (rafCallbacks w).
Proof.
  intros Hw. destruct (singleLoop_invariant w Hw) as [_ Hinv].
  destruct Hinv as [[Hc Hl]|(id & Hc & Ha & _ & Hs)]; rewrite Hc.
  - split; [simpl; lia|constructor].
  - rewrite Hs. split; [simpl; lia|]. by repeat constructor.
Qed.

(** One pending tick, at a concrete input: the page with the second tick
    registered. *)
Lemma single_loop_witness :
  length (rafCallbacks tickRegistered) + length (suspended tickRegistered) <= 1
  /\ Forall (fun id => animationId tickRegistered = Some id)
       (rafCallbacks tickRegistered).
Proof.
  apply single_loop_has_one_pending_tick.
  change (singleLoop
            (step (step (idleWorld (Some DummyModel)) (CallProcessVideo (Ok tt)))
               PromiseSettled)).
  apply singleLoop_step; [|discriminate].
  apply singleLoop_step; [|reflexivity].
  apply singleLoop_idle; [reflexivity|reflexivity|simpl; lia].
Defined.

(** [stopProcessing] is idempotent and silent: a second call changes
    nothing, no effect is produced, the suspended activations stay, and
    every callback registered under a handle other than the one in
    [animationId] stays registered. *)
Theorem stopProcessing_is_idempotent_and_silent (w : World) :
  stopProcessing (stopProcessing w) = stopProcessing w
  /\ effects (stopProcessing w) = effects w
  /\ suspended (stopProcessing w) = suspended w
  /\ Forall (fun id => animationId w = Some id
                       \/ id ∈ rafCallbacks (stopProcessing w))
       (rafCallbacks w).
Proof.
  unfold stopProcessing.
  destruct (animationId w) as [id|] eqn:Ha.
  - destruct (Z.eqb_spec id 0) as [->|Hne].
    + rewrite Ha. cbn. repeat split.
      apply Forall_forall. intros id' Hin. by right.
    + cbn. repeat split. apply Forall_forall. intros id' Hin.
      destruct (decide (id' = id)) as [->|Hd]; [by left|right].
      apply list_elem_of_filter. by split.
  - rewrite Ha. repeat split. apply Forall_forall. intros id' Hin. by right.
Qed.

(** [stopProcessing] stops only the latest loop: when [processVideo] is
    called again while a tick of an earlier call is registered, the new
    loop takes over [animationId]; a call of [stopProcessing] then cancels
    the tick of the new loop, and the tick of the earlier loop stays
    registered. *)
Theorem stopProcessing_stops_only_latest_loop
  (w : World) (id : Z) (fromPixels : JsResult unit) :
  paused (videoElement w) || ended (videoElement w) = false ->
  rafCallbacks w = [id] ->
  suspended w = [] ->
  (0 < id <= rafHandle w)%Z ->
  rafCallbacks (run w [ CallProcessVideo fromPixels; PromiseSettled ])
  = [ id; (rafHandle w + 1)%Z ]
  /\ rafCallbacks (run w [ CallProcessVideo fromPixels; PromiseSettled;
                           CallStopProcessing ]) = [ id ]
  /\ animationId (run w [ CallProcessVideo fromPixels; PromiseSettled;
                          CallStopProcessing ]) = None
  /\ scheduled (run w [ CallProcessVideo fromPixels; PromiseSettled;
                        CallStopProcessing ]) = true.
Proof.
  intros Hp Hc Hs Hid. unfold run. cbn [foldl step].
  destruct (processFrame_begin_loop fromPixels w Hp) as (p & H1 & H2 & H3 & _).
  rewrite H1, Hs. cbn [app].
  destruct (processFrame_resume_loop p
              (set_suspended [] (processFrame_begin fromPixels w)))
    as (R1 & R2 & R3 & R4).
  cbn [rafCallbacks rafHandle set_suspended suspended] in R1, R2, R3, R4.
  rewrite H2, H3, Hc in R1. rewrite H3 in R2, R3. cbn [app] in R1.
  split; [exact R1|].
  unfold stopProcessing. rewrite R3.
  destruct (Z.eqb_spec (rafHandle w + 1) 0) as [?|_]; [lia|].
  unfold scheduled. cbn. rewrite R1. cbn [filter list_filter].
  rewrite decide_True by lia.
  rewrite decide_False by (intros Hn; by apply Hn).
  by repeat split.
Qed.

(** The latest loop only, at a concrete input: [processVideo] is called
    again on the page that has its second tick registered under handle 1. *)
Lemma stopProcessing_stops_only_latest_witness :
  rafCallbacks (run tickRegistered
                  [ CallProcessVideo (Ok tt); PromiseSettled;
                    CallStopProcessing ]) = [ 1%Z ]
  /\ scheduled (run tickRegistered
                  [ CallProcessVideo (Ok tt); PromiseSettled;
                    CallStopProcessing ]) = true.
Proof.
  destruct (stopProcessing_stops_only_latest_loop tickRegistered 1 (Ok tt))
    as (_ & H2 & _ & H4).
  - vm_compute; reflexivity.
  - vm_compute; reflexivity.
  - vm_compute; reflexivity.
  - replace (rafHandle tickRegistered) with 1%Z by (vm_compute; reflexivity).
    lia.
  - exact (conj H2 H4).
Defined.

(** [processVideo] on a paused or ended video never starts the loop: the
    first [processFrame] returns before it requests a frame, so that a
    caller who starts the video only afterwards (as [startDetection] does:
    [await processVideo(..)], then [play()]) gets no frame processed, no
    callback and no tick, whatever follows short of another call of
    [processVideo]. *)
Theorem processVideo_before_play_never_starts
  (w : World) (fromPixels : JsResult unit) (played : HTMLVideoElement)
  (events : list Event) :
  paused (videoElement w) || ended (videoElement w) = true ->
  scheduled w = false ->
  forallb (fun e => negb (isCallProcessVideo e)) events = true ->
  effects (run w (CallProcessVideo fromPixels :: VideoChanged played :: events))
  = effects w
  /\ scheduled
       (run w (CallProcessVideo fromPixels :: VideoChanged played :: events))
     = false.
Proof.
  intros Hp Hs Hev. unfold run. cbn [foldl step].
  rewrite processFrame_begin_skip by exact Hp.
  fold (run (set_videoElement played w) events).
  assert (Hs' : scheduled (set_videoElement played w) = false) by exact Hs.
  destruct (ended_loop_run events _ Hs' Hev) as [H1 H2].
  split; [exact H2|exact H1].
Qed.

(** Never started, at a concrete input: the page with a paused video;
    [processVideo], then the video plays and the browser reaches frames. *)
Lemma processVideo_before_play_witness :
  effects (run pausedIdleWorld
             (CallProcessVideo (Ok tt) :: VideoChanged playingVideo
              :: [ AnimationFrame 1 (Ok tt); PromiseSettled ]))
  = effects pausedIdleWorld
  /\ scheduled
       (run pausedIdleWorld
          (CallProcessVideo (Ok tt) :: VideoChanged playingVideo
           :: [ AnimationFrame 1 (Ok tt); PromiseSettled ]))
     = false.
Proof.
  exact (processVideo_before_play_never_starts pausedIdleWorld (Ok tt)
           playingVideo [ AnimationFrame 1 (Ok tt); PromiseSettled ]
           eq_refl eq_refl eq_refl).
Defined.

Lemma paused_step_bound w e :
  paused (videoElement w) = true ->
  isVideoChanged e = false ->
  paused (videoElement (step w e)) = true
  /\ countCallbacks (effects (step w e)) + length (suspended (step w e))
     <= countCallbacks (effects w) + length (suspended w).
Proof.
  intros Hp He.
  assert (Hskip : forall fp w', paused (videoElement w') = true ->
                                processFrame_begin fp w' = w').
  { intros fp w' Hp'. apply processFrame_begin_skip. by rewrite Hp'. }
  destruct e as [fp|id fp| | |v]; try discriminate; cbn [step].
  - rewrite Hskip by done. split; [done|lia].
  - case_bool_decide; [|split; [done|lia]].
    rewrite Hskip by done. split; [done|]. simpl. lia.
  - destruct (suspended w) as [|p rest] eqn:Hs; [rewrite Hs; split; [done|lia]|].
    destruct (processFrame_resume_effects p (set_suspended rest w))
      as (E1 & _ & E3 & _).
    destruct (processFrame_resume_loop p (set_suspended rest w))
      as (_ & _ & _ & E4).
    rewrite E1, E3, E4. cbn [effects videoElement suspended set_suspended].
    split; [done|]. rewrite countCallbacks_app.
    destruct p as [d|err]; [destruct (hasOnDetection (set_suspended rest w))|];
      unfold countCallbacks at 2; simpl; lia.
  - unfold stopProcessing.
    destruct (animationId w) as [id|]; [destruct (id =? 0)%Z|];
      split; try done; simpl; lia.
Qed.

Lemma paused_run_bound events : forall w,
  paused (videoElement w) = true ->
  forallb (fun e => negb (isVideoChanged e)) events = true ->
  countCallbacks (effects (run w events)) + length (suspended (run w events))
  <= countCallbacks (effects w) + length (suspended w).
Proof.
  induction events as [|e events IH]; intros w Hp Hev; [simpl; lia|].
  simpl in Hev. apply andb_prop in Hev as [He Hev].
  apply negb_true_iff in He.
  destruct (paused_step_bound w e Hp He) as [Hp' Hb].
  unfold run. cbn [foldl]. fold (run (step w e) events).
  specialize (IH (step w e) Hp' Hev). lia.
Qed.

(** [stopDetection] pauses the video before it calls [stopProcessing]:
    on a page that runs one loop, as long as the video stays paused, at
    most one more batch reaches the callback afterwards (the one of a
    detection in flight at the time), and none when no detection was in
    flight. *)
Theorem stopDetection_allows_at_most_one_stale_batch
  (w : World) (events : list Event) :
  singleLoop w ->
  forallb (fun e => negb (isVideoChanged e)) events = true ->
  countCallbacks
    (effects (run (VideoDetectionControls.stopDetection true true w) events))
  <= countCallbacks (effects w) + length (suspended w)
  /\ length (suspended w) <= 1.
Proof.
  intros Hw Hev.
  destruct (singleLoop_invariant w Hw) as [_ Hinv].
  assert (Hl : length (suspended w) <= 1).
  { destruct Hinv as [[_ Hl]|(id & _ & _ & _ & Hs)]; [done|].
    rewrite Hs. simpl. lia. }
  split; [|exact Hl].
  unfold VideoDetectionControls.stopDetection.
  destruct (stopProcessing_is_idempotent_and_silent
              (set_videoElement (pause (videoElement w)) w)) as (_ & He & Hs & _).
  assert (Hp : paused (videoElement
                         (stopProcessing
                            (set_videoElement (pause (videoElement w)) w)))
               = true).
  { unfold stopProcessing. cbn [animationId set_videoElement].
    destruct (animationId w) as [id|]; [destruct (id =? 0)%Z|]; reflexivity. }
  pose proof (paused_run_bound events _ Hp Hev) as Hb.
  rewrite He, Hs in Hb. cbn [effects suspended set_videoElement] in Hb. lia.
Qed.

(** At most one stale batch, at a concrete input: [stopDetection] is
    called while the first detection is in flight. *)
Lemma stopDetection_witness :
  countCallbacks
    (effects (run (VideoDetectionControls.stopDetection true true
                     (step (idleWorld (Some DummyModel))
                        (CallProcessVideo (Ok tt))))
                [ PromiseSettled; AnimationFrame 1 (Ok tt); PromiseSettled ]))
  <= countCallbacks
       (effects (step (idleWorld (Some DummyModel)) (CallProcessVideo (Ok tt))))
     + length
         (suspended (step (idleWorld (Some DummyModel))
                       (CallProcessVideo (Ok tt)))).
Proof.
  refine (proj1 (stopDetection_allows_at_most_one_stale_batch
                   (step (idleWorld (Some DummyModel)) (CallProcessVideo (Ok tt)))
                   [ PromiseSettled; AnimationFrame 1 (Ok tt); PromiseSettled ]
                   _ eq_refl)).
  apply singleLoop_step; [|reflexivity].
  apply singleLoop_idle; [reflexivity|reflexivity|simpl; lia].
Defined.

End PipelineMoreFacts.

(** ** The webcam hook, further *)

(** [stopWebcam] is idempotent: a second call changes nothing. *)
Theorem stopWebcam_is_idempotent (h : useWebcam.Hook) :
  useWebcam.stopWebcam (useWebcam.stopWebcam h) = useWebcam.stopWebcam h.
Proof.
  unfold useWebcam.stopWebcam.
  destruct (useWebcam.streamRef h) eqn:Hs;
    cbn [useWebcam.streamRef useWebcam.tracks]; rewrite ?Hs; reflexivity.
Qed.

(** A second [startWebcam] without a [stopWebcam] in between leaks the
    first stream: the hook keeps the latest stream only, so the later
    [stopWebcam] stops the tracks of the second stream and leaves every
    track of the first stream that the second does not share as it was. *)
Theorem second_startWebcam_leaks_first_stream
  (h : useWebcam.Hook) (first second : useWebcam.MediaStream) :
  useWebcam.streamRef
    (useWebcam.startWebcam (inl second)
       (useWebcam.startWebcam (inl first) h).2).2 = Some second
  /\ Forall (fun track =>
               useWebcam.tracks
                 (useWebcam.stopWebcam
                    (useWebcam.startWebcam (inl second)
                       (useWebcam.startWebcam (inl first) h).2).2) !! track
               = Some useWebcam.Ended)
       (useWebcam.getTracks second)
  /\ Forall (fun track =>
               track ∈ useWebcam.getTracks second
               \/ useWebcam.tracks
                    (useWebcam.stopWebcam
                       (useWebcam.startWebcam (inl second)
                          (useWebcam.startWebcam (inl first) h).2).2) !! track
                  = useWebcam.tracks h !! track)
       (useWebcam.getTracks first).
Proof.
  split; [reflexivity|].
  unfold useWebcam.stopWebcam, useWebcam.startWebcam.
  cbn [snd useWebcam.streamRef useWebcam.tracks].
  split; apply Forall_forall; intros track Hin; rewrite stop_all_lookup.
  - by rewrite decide_True.
  - destruct (decide (track ∈ useWebcam.getTracks second)) as [?|Hn];
      [by left|by right].
Qed.

(** A failed [startWebcam] reports the failure and keeps the stream of an
    earlier success: [isActive] becomes false and [error] holds a message
    (the one of the error, or "Failed to access webcam"), while
    [streamRef] still holds the earlier stream, whose tracks the next
    [stopWebcam] stops. *)
Theorem failed_startWebcam_keeps_earlier_stream
  (h : useWebcam.Hook) (stream : useWebcam.MediaStream)
  (rejection : useWebcam.Rejection) :
  useWebcam.streamRef h = Some stream ->
  (useWebcam.startWebcam (inr rejection) h).1 = None
  /\ useWebcam.isActive (useWebcam.startWebcam (inr rejection) h).2 = false
  /\ useWebcam.error (useWebcam.startWebcam (inr rejection) h).2
     = Some match rejection with
            | useWebcam.ErrorObject message => message
            | useWebcam.OtherValue => "Failed to access webcam"
            end
  /\ useWebcam.streamRef (useWebcam.startWebcam (inr rejection) h).2
     = Some stream
  /\ useWebcam.tracks (useWebcam.startWebcam (inr rejection) h).2
     = useWebcam.tracks h
  /\ Forall (fun track =>
               useWebcam.tracks
                 (useWebcam.stopWebcam
                    (useWebcam.startWebcam (inr rejection) h).2) !! track
               = Some useWebcam.Ended)
       (useWebcam.getTracks stream).
Proof.
  intros Hs. unfold useWebcam.startWebcam. cbn [fst snd].
  cbn [useWebcam.isActive useWebcam.error useWebcam.streamRef useWebcam.tracks].
  do 5 (split; [done|]).
  unfold useWebcam.stopWebcam.
  cbn [useWebcam.streamRef useWebcam.tracks]. rewrite Hs.
  cbn [useWebcam.tracks].
  apply Forall_forall. intros track Hin.
  rewrite stop_all_lookup. by rewrite decide_True.
Qed.

(** A failed retry, at a concrete input: the camera session of one track,
    then a second request that the browser rejects with a value that is
    not an [Error]. *)
Lemma failed_startWebcam_witness :
  useWebcam.error (useWebcam.startWebcam (inr useWebcam.OtherValue) activeHook).2
  = Some "Failed to access webcam"
  /\ useWebcam.streamRef
       (useWebcam.startWebcam (inr useWebcam.OtherValue) activeHook).2
     = Some cameraStream
  /\ Forall (fun track =>
               useWebcam.tracks
                 (useWebcam.stopWebcam
                    (useWebcam.startWebcam (inr useWebcam.OtherValue)
                       activeHook).2) !! track
               = Some useWebcam.Ended)
       (useWebcam.getTracks cameraStream).
Proof.
  destruct (failed_startWebcam_keeps_earlier_stream activeHook cameraStream
              useWebcam.OtherValue eq_refl)
    as (_ & _ & H3 & H4 & _ & H6).
  exact (conj H3 (conj H4 H6)).
Defined.

(** ** The palette *)

(** Two detections of a batch get the same box colour exactly when their
    positions differ by a multiple of 7: the seven colours of the palette
    are distinct, so the detections of a batch of up to seven (the mock
    generator makes at most four) all differ in colour. *)
Theorem box_colours_repeat_every_seven (i j : nat) :
  default "undefined"
    (VideoProcessor.colors !! (i mod length VideoProcessor.colors))
  = default "undefined"
      (VideoProcessor.colors !! (j mod length VideoProcessor.colors))
  <-> i mod 7 = j mod 7.
Proof.
  change (length VideoProcessor.colors) with 7.
  assert (Hnd : NoDup VideoProcessor.colors)
    by (refine (bool_decide_unpack _ _); vm_compute; exact I).
  assert (Hi : i mod 7 < length VideoProcessor.colors)
    by (change (length VideoProcessor.colors) with 7;
        apply Nat.mod_upper_bound; lia).
  assert (Hj : j mod 7 < length VideoProcessor.colors)
    by (change (length VideoProcessor.colors) with 7;
        apply Nat.mod_upper_bound; lia).
  destruct (lookup_lt_is_Some_2 _ _ Hi) as [ci Hci].
  destruct (lookup_lt_is_Some_2 _ _ Hj) as [cj Hcj].
  rewrite Hci, Hcj. change (ci = cj <-> i mod 7 = j mod 7). split.
  - intros ->. exact (NoDup_lookup _ _ _ _ Hnd Hci Hcj).
  - intros Heq. rewrite Heq in Hci. congruence.
Qed.
